(** * gemini-image-mcp: the request-handling gateway, embedded and verified

    A shallow embedding of [gemini-client.ts] (class [GeminiImageClient])
    and of the tool-call handler of [index.ts] (class
    [GeminiImageMCPServer]).

    Conventions of the embedding.
    - JavaScript strings are [string]s whose characters are 8-bit code
      units; the character classes of the regular expressions of the
      source ([.], [\s], [\d]) are restricted to that range.
    - Time stamps ([Date.now()]) and the configured limit are integers
      ([Z]); where the source can produce [Infinity] ([Math.min] of no
      argument) the value is a [JsNumber].
    - A method that can throw, reads the clock, mutates
      [this.requestTimestamps] or talks to the remote model is a
      computation of the monad [M]: a function from the [World] to a
      [Result] and the next [World].  An [await] is sequencing: one
      operation runs to completion. *)

From Stdlib Require Import ZArith List String Ascii Bool Lia DecimalString QArith.
Import ListNotations.

Local Open Scope Z_scope.
Local Open Scope string_scope.
Local Open Scope list_scope.

(** ** JavaScript values that the source manipulates *)

(** A thrown value: an [Error] instance with its [message], or any
    other value ([error instanceof Error] is false). *)
Inductive JsException : Type :=
| JsError (message : string)
| JsThrown (value : string).

Inductive Result (A : Type) : Type :=
| Ok (value : A)
| Throw (error : JsException).
Arguments Ok {A} value.
Arguments Throw {A} error.

(** Integer-valued numbers together with the two infinities and NaN. *)
Inductive JsNumber : Type :=
| Num (z : Z)
| PosInfinity
| NegInfinity
| NaN.

Definition jsNeg (a : JsNumber) : JsNumber :=
  match a with
  | Num z => Num (- z)
  | PosInfinity => NegInfinity
  | NegInfinity => PosInfinity
  | NaN => NaN
  end.

Definition jsAdd (a b : JsNumber) : JsNumber :=
  match a, b with
  | NaN, _ | _, NaN => NaN
  | Num x, Num y => Num (x + y)
  | PosInfinity, NegInfinity | NegInfinity, PosInfinity => NaN
  | PosInfinity, _ | _, PosInfinity => PosInfinity
  | NegInfinity, _ | _, NegInfinity => NegInfinity
  end.

Definition jsSub (a b : JsNumber) : JsNumber := jsAdd a (jsNeg b).

(** [Math.ceil(a / d)] for a positive integer divisor [d]. *)
Definition jsCeilDiv (a : JsNumber) (d : Z) : JsNumber :=
  match a with
  | Num z => Num (- ((- z) / d))
  | other => other
  end.

Definition string_of_Z (z : Z) : string := NilZero.string_of_int (Z.to_int z).

Definition string_of_nat (n : nat) : string := string_of_Z (Z.of_nat n).

(** Template-literal rendering of a number. *)
Definition jsNumberToString (a : JsNumber) : string :=
  match a with
  | Num z => string_of_Z z
  | PosInfinity => "Infinity"
  | NegInfinity => "-Infinity"
  | NaN => "NaN"
  end.

(** [a > 0] on numbers. *)
Definition jsPositive (a : JsNumber) : Prop :=
  match a with
  | Num z => 0 < z
  | PosInfinity => True
  | NegInfinity | NaN => False
  end.

(** [Math.min(...xs)]: [Infinity] when there is no argument. *)
Fixpoint Math_min (xs : list Z) : JsNumber :=
  match xs with
  | [] => PosInfinity
  | x :: rest =>
      match Math_min rest with
      | Num m => Num (Z.min x m)
      | _ => Num x
      end
  end.

(** ** The rate limiter: [checkRateLimit]

    The body of [checkRateLimit] after [const now = Date.now()], as a
    function of [now], the limit [this.config.maxRequestsPerMinute] and
    the field [this.requestTimestamps]; it returns the outcome and the
    new value of the field.  The field is reassigned by the [filter]
    before the test, so a rejected check prunes it too. *)

Definition windowMs : Z := 60000.

Definition pruneTimestamps (now : Z) (timestamps : list Z) : list Z :=
  let oneMinuteAgo := now - windowMs in
  filter (fun timestamp => timestamp >? oneMinuteAgo) timestamps.

(** [waitTime = 60000 - (now - Math.min(...this.requestTimestamps))]. *)
Definition rateLimitWaitTime (now : Z) (remaining : list Z) : JsNumber :=
  let oldestRequest := Math_min remaining in
  jsSub (Num windowMs) (jsSub (Num now) oldestRequest).

Definition rateLimitMessage (waitTime : JsNumber) : string :=
  ("Rate limit exceeded. Please wait "
    ++ jsNumberToString (jsCeilDiv waitTime 1000) ++ " seconds.")%string.

Definition checkRateLimitAt (maxRequestsPerMinute now : Z)
    (requestTimestamps : list Z) : Result unit * list Z :=
  let remaining := pruneTimestamps now requestTimestamps in
  if Z.of_nat (List.length remaining) >=? maxRequestsPerMinute
  then (Throw (JsError (rateLimitMessage (rateLimitWaitTime now remaining))),
        remaining)
  else (Ok tt, remaining ++ [now]).

(** A run of admission checks at the given times, all of which are
    admitted: the field after the last one. *)
Fixpoint admitAll (maxRequestsPerMinute : Z) (times : list Z)
    (requestTimestamps : list Z) : option (list Z) :=
  match times with
  | [] => Some requestTimestamps
  | now :: later =>
      match checkRateLimitAt maxRequestsPerMinute now requestTimestamps with
      | (Ok _, timestamps') => admitAll maxRequestsPerMinute later timestamps'
      | (Throw _, _) => None
      end
  end.

(** The values the field can take in the life of a client: it starts
    empty and changes only through admission checks. *)
Inductive reachableTimestamps (maxRequestsPerMinute : Z) : list Z -> Prop :=
| reach_initial : reachableTimestamps maxRequestsPerMinute []
| reach_check : forall now timestamps,
    reachableTimestamps maxRequestsPerMinute timestamps ->
    reachableTimestamps maxRequestsPerMinute
      (snd (checkRateLimitAt maxRequestsPerMinute now timestamps)).

(** ** Strings: the built-ins and the regular expressions of the parser *)

Definition charCode (c : ascii) : N := N_of_ascii c.

(** [\d]. *)
Definition isDigit (c : ascii) : bool :=
  ((48 <=? charCode c) && (charCode c <=? 57))%N.

(** [[0-9A-Fa-f]]. *)
Definition isHexDigit (c : ascii) : bool :=
  (isDigit c
   || ((65 <=? charCode c) && (charCode c <=? 70))
   || ((97 <=? charCode c) && (charCode c <=? 102)))%N.

(** The line terminators LF and CR: the characters [.] does not match. *)
Definition isLineTerminator (c : ascii) : bool :=
  ((charCode c =? 10) || (charCode c =? 13))%N.

(** [\s], which is also what [trim] strips: TAB, LF, VT, FF, CR, space
    and the no-break space. *)
Definition isWhiteSpace (c : ascii) : bool :=
  (((9 <=? charCode c) && (charCode c <=? 13))
   || (charCode c =? 32) || (charCode c =? 160))%N.

(** Case folding of the [i] flag, which relates a letter of a..z only to
    its capital. *)
Definition canonicalize (c : ascii) : ascii :=
  if ((97 <=? charCode c) && (charCode c <=? 122))%N
  then ascii_of_N (charCode c - 32)
  else c.

(** The longest prefix of characters of a class (a greedy [*]), and the
    rest. *)
Fixpoint span (p : ascii -> bool) (s : string) : string * string :=
  match s with
  | EmptyString => (EmptyString, EmptyString)
  | String c rest =>
      if p c
      then let (taken, left) := span p rest in (String c taken, left)
      else (EmptyString, s)
  end.

Definition isEmpty (s : string) : bool :=
  match s with
  | EmptyString => true
  | String _ _ => false
  end.

Fixpoint trimStart (s : string) : string :=
  match s with
  | EmptyString => EmptyString
  | String c rest => if isWhiteSpace c then trimStart rest else s
  end.

Fixpoint trimEnd (s : string) : string :=
  match s with
  | EmptyString => EmptyString
  | String c rest =>
      let kept := trimEnd rest in
      if isWhiteSpace c && isEmpty kept then EmptyString else String c kept
  end.

Definition trim (s : string) : string := trimEnd (trimStart s).

(** [text.split('\n')]: never empty, the empty string gives one empty
    piece. *)
Fixpoint splitLines (s : string) : list string :=
  match s with
  | EmptyString => [EmptyString]
  | String c rest =>
      if (charCode c =? 10)%N
      then EmptyString :: splitLines rest
      else match splitLines rest with
           | line :: lines => String c line :: lines
           | [] => [String c EmptyString]
           end
  end.

(** [parseInt] of a run of decimal digits (as a real number: the
    rounding of integers beyond 2^53 is not modelled). *)
Fixpoint parseDigits (acc : N) (digits : string) : N :=
  match digits with
  | EmptyString => acc
  | String c rest => parseDigits (acc * 10 + (charCode c - 48))%N rest
  end.

Definition parseInt (digits : string) : N := parseDigits 0%N digits.

(** [parseInt(digits) / 100]. *)
Definition percentToConfidence (digits : string) : Q :=
  Z.of_N (parseInt digits) # 100.

(** [(\d+)%] at the head of [s]: the digits are taken greedily, and
    giving one back never helps since a digit is not [%]. *)
Definition matchDigitsPercent (s : string) : option string :=
  match span isDigit s with
  | (String d ds, String c _) =>
      if (charCode c =? 37)%N then Some (String d ds) else None
  | _ => None
  end.

(** [:\s*(\d+)%] at the head of [s]. *)
Definition matchColonPercent (s : string) : option string :=
  match s with
  | String c rest =>
      if (charCode c =? 58)%N
      then matchDigitsPercent (snd (span isWhiteSpace rest))
      else None
  | EmptyString => None
  end.

(** The lazy group [(.+?)] of the object pattern, of which [name] is
    already taken: first try to stop here, then take one more
    character that is not a line terminator. *)
Fixpoint matchObjectFrom (name : string) (s : string) : option (string * string) :=
  match s with
  | EmptyString => None
  | String c rest =>
      match matchColonPercent s with
      | Some digits => Some (name, digits)
      | None =>
          if isLineTerminator c then None
          else matchObjectFrom (name ++ String c EmptyString)%string rest
      end
  end.

(** [line.match(/(.+?):\s*(\d+)%/)]: the groups 1 and 2 of the match at
    the leftmost starting position that has one. *)
Fixpoint matchObjectLine (line : string) : option (string * string) :=
  match line with
  | EmptyString => None
  | String c rest =>
      match (if isLineTerminator c then None
             else matchObjectFrom (String c EmptyString) rest) with
      | Some groups => Some groups
      | None => matchObjectLine rest
      end
  end.

(** The word of the emotion pattern at the head of [s], case folded:
    what follows it. *)
Fixpoint matchWord (word : string) (s : string) : option string :=
  match word, s with
  | EmptyString, _ => Some s
  | String w word', String c rest =>
      if (charCode (canonicalize w) =? charCode (canonicalize c))%N
      then matchWord word' rest
      else None
  | String _ _, EmptyString => None
  end.

(** [.*?(\d+)%] at the head of [s]: the lazy [.*?] grows one character
    at a time. *)
Fixpoint matchLazyPercent (s : string) : option string :=
  match matchDigitsPercent s with
  | Some digits => Some digits
  | None =>
      match s with
      | EmptyString => None
      | String c rest =>
          if isLineTerminator c then None else matchLazyPercent rest
      end
  end.

(** [text.match(new RegExp(`${emotion}.*?(\\d+)%`, 'i'))]: group 1 of
    the match at the leftmost starting position that has one. *)
Fixpoint matchEmotion (emotion : string) (text : string) : option string :=
  match (match matchWord emotion text with
         | Some rest => matchLazyPercent rest
         | None => None
         end) with
  | Some digits => Some digits
  | None =>
      match text with
      | EmptyString => None
      | String _ rest => matchEmotion emotion rest
      end
  end.

(** A [#] and six hexadecimal digits at the head of [s]. *)
Definition matchHexColor (s : string) : option string :=
  match s with
  | String h (String a (String b (String c (String d (String e (String f _)))))) =>
      if (charCode h =? 35)%N && isHexDigit a && isHexDigit b && isHexDigit c
         && isHexDigit d && isHexDigit e && isHexDigit f
      then Some (String h (String a (String b (String c (String d (String e
                  (String f EmptyString)))))))
      else None
  | _ => None
  end.

(** [text.match(/#[0-9A-Fa-f]{6}/g)]: the matches from left to right,
    the search resuming after each one ([skip] counts the characters of
    the last match still to pass). *)
Fixpoint matchAllHexColors (skip : nat) (text : string) : list string :=
  match text with
  | EmptyString => []
  | String _ rest =>
      match skip with
      | S skip' => matchAllHexColors skip' rest
      | O =>
          match matchHexColor text with
          | Some hex => hex :: matchAllHexColors 6 rest
          | None => matchAllHexColors 0 rest
          end
      end
  end.

(** [haystack.includes(needle)]. *)
Fixpoint includes (needle haystack : string) : bool :=
  String.prefix needle haystack
  || match haystack with
     | EmptyString => false
     | String _ rest => includes needle rest
     end.

(** ** The analysis result and its parser *)

Record DetectedObject : Type := mkDetectedObject {
  obj_name : string;
  obj_confidence : Q
}.

Record DominantColor : Type := mkDominantColor {
  color_hex : string;
  color_name : string;
  color_percentage : Z
}.

Record DetectedEmotion : Type := mkDetectedEmotion {
  emo_emotion : string;
  emo_confidence : Q
}.

(** The composite of [parseComprehensive]; its collections are always
    empty, so their element type is immaterial. *)
Record Comprehensive : Type := mkComprehensive {
  comp_description : string;
  comp_objects : list DetectedObject;
  comp_text : list string;
  comp_colors : list DominantColor;
  comp_emotions : list DetectedEmotion;
  comp_tags : list string
}.

(** [AnalysisResult]: every field is optional, [None] is an absent
    property. *)
Record AnalysisResult : Type := mkAnalysisResult {
  description : option string;
  objects : option (list DetectedObject);
  text_ : option (list string);
  colors : option (list DominantColor);
  emotions : option (list DetectedEmotion);
  comprehensive : option Comprehensive
}.

(** [const result: AnalysisResult = {}]. *)
Definition emptyAnalysisResult : AnalysisResult :=
  mkAnalysisResult None None None None None None.

Definition parseObjects (text : string) : list DetectedObject :=
  let lines := splitLines text in
  fold_left
    (fun objects line =>
       match matchObjectLine line with
       | Some (name, digits) =>
           objects ++ [mkDetectedObject (trim name) (percentToConfidence digits)]
       | None => objects
       end)
    lines [].

Definition parseText (text : string) : list string :=
  filter (fun line => negb (isEmpty (trim line))) (splitLines text).

Definition parseColors (text : string) : list DominantColor :=
  map (fun hex => mkDominantColor hex "Unknown" 0) (matchAllHexColors 0 text).

Definition emotionWords : list string :=
  ["happy"; "sad"; "angry"; "surprised"; "fear"; "disgust"; "neutral"].

Definition parseEmotions (text : string) : list DetectedEmotion :=
  fold_left
    (fun result emotion =>
       match matchEmotion emotion text with
       | Some digits =>
           result ++ [mkDetectedEmotion emotion (percentToConfidence digits)]
       | None => result
       end)
    emotionWords [].

Definition parseComprehensive (text : string) : Comprehensive :=
  mkComprehensive text [] [] [] [] [].

(** The five extraction methods [parseAnalysisResult] calls on [this];
    each may throw. *)
Record Extractors : Type := mkExtractors {
  ex_parseObjects : string -> Result (list DetectedObject);
  ex_parseText : string -> Result (list string);
  ex_parseColors : string -> Result (list DominantColor);
  ex_parseEmotions : string -> Result (list DetectedEmotion);
  ex_parseComprehensive : string -> Result Comprehensive
}.

(** The methods of the class: none of them throws on a string. *)
Definition clientExtractors : Extractors :=
  mkExtractors
    (fun text => Ok (parseObjects text))
    (fun text => Ok (parseText text))
    (fun text => Ok (parseColors text))
    (fun text => Ok (parseEmotions text))
    (fun text => Ok (parseComprehensive text)).

(** [result.field = extractor(text)]: the assignment happens only if
    the right-hand side returns. *)
Definition assignFrom {A : Type} (extracted : Result A)
    (assign : A -> AnalysisResult) : Result AnalysisResult :=
  match extracted with
  | Ok value => Ok (assign value)
  | Throw error => Throw error
  end.

(** [try { body } catch (error) { handler }] on a computation without
    effects. *)
Definition tryCatchPure {A : Type} (body : Result A)
    (handler : JsException -> Result A) : Result A :=
  match body with
  | Ok value => Ok value
  | Throw error => handler error
  end.

(** [parseAnalysisResult], over the extraction methods it calls. *)
Definition parseAnalysisResultWith (this : Extractors) (text : string)
    (analysisType : string) : Result AnalysisResult :=
  let result := emptyAnalysisResult in
  tryCatchPure
    (if (analysisType =? "description")%string then
       Ok (mkAnalysisResult (Some text) None None None None None)
     else if (analysisType =? "objects")%string then
       assignFrom (ex_parseObjects this text)
         (fun v => mkAnalysisResult None (Some v) None None None None)
     else if (analysisType =? "text")%string then
       assignFrom (ex_parseText this text)
         (fun v => mkAnalysisResult None None (Some v) None None None)
     else if (analysisType =? "colors")%string then
       assignFrom (ex_parseColors this text)
         (fun v => mkAnalysisResult None None None (Some v) None None)
     else if (analysisType =? "emotions")%string then
       assignFrom (ex_parseEmotions this text)
         (fun v => mkAnalysisResult None None None None (Some v) None)
     else if (analysisType =? "comprehensive")%string then
       assignFrom (ex_parseComprehensive this text)
         (fun v => mkAnalysisResult None None None None None (Some v))
     else
       Ok (mkAnalysisResult (Some text) None None None None None))
    (fun _ =>
       Ok (mkAnalysisResult (Some text) (objects result) (text_ result)
             (colors result) (emotions result) (comprehensive result))).

Definition parseAnalysisResult (text : string) (analysisType : string)
    : Result AnalysisResult :=
  parseAnalysisResultWith clientExtractors text analysisType.

(** ** The request types of [types.ts] *)

Inductive AspectRatio : Type :=
| Ratio_1_1 | Ratio_16_9 | Ratio_9_16 | Ratio_4_3 | Ratio_3_4.

Definition aspectRatioName (r : AspectRatio) : string :=
  match r with
  | Ratio_1_1 => "1:1"
  | Ratio_16_9 => "16:9"
  | Ratio_9_16 => "9:16"
  | Ratio_4_3 => "4:3"
  | Ratio_3_4 => "3:4"
  end.

Inductive ImageStyle : Type :=
| Realistic | Artistic | Cartoon | Sketch | Watercolor | OilPainting.

Definition imageStyleName (s : ImageStyle) : string :=
  match s with
  | Realistic => "realistic"
  | Artistic => "artistic"
  | Cartoon => "cartoon"
  | Sketch => "sketch"
  | Watercolor => "watercolor"
  | OilPainting => "oil-painting"
  end.

Inductive Quality : Type := Standard | High | Ultra.

Inductive AnalysisType : Type :=
| Description | Objects | Text | Colors | Emotions | ComprehensiveAnalysis.

Definition analysisTypeName (t : AnalysisType) : string :=
  match t with
  | Description => "description"
  | Objects => "objects"
  | Text => "text"
  | Colors => "colors"
  | Emotions => "emotions"
  | ComprehensiveAnalysis => "comprehensive"
  end.

Inductive Detail : Type := Low | Medium | HighDetail.

Definition detailName (d : Detail) : string :=
  match d with
  | Low => "low"
  | Medium => "medium"
  | HighDetail => "high"
  end.

Inductive ArtisticStyle : Type :=
| Anime | Renaissance | Impressionist | Cyberpunk | Minimalist | Vintage
| Futuristic.

Definition artisticStyleName (s : ArtisticStyle) : string :=
  match s with
  | Anime => "anime"
  | Renaissance => "renaissance"
  | Impressionist => "impressionist"
  | Cyberpunk => "cyberpunk"
  | Minimalist => "minimalist"
  | Vintage => "vintage"
  | Futuristic => "futuristic"
  end.

(** [Omit<ImageGenerationOptions, 'prompt'>]. *)
Record BaseOptions : Type := mkBaseOptions {
  width : option Z;
  height : option Z;
  aspectRatio : option AspectRatio;
  style : option ImageStyle;
  quality : option Quality;
  numberOfImages : option Z;
  seed : option Z
}.

Definition noBaseOptions : BaseOptions :=
  mkBaseOptions None None None None None None None.

Record ImageGenerationOptions : Type := mkImageGenerationOptions {
  prompt : string;
  gen_options : BaseOptions
}.

Record ImageModificationOptions : Type := mkImageModificationOptions {
  mod_imageBase64 : string;
  instructions : string;
  preserveStyle : option bool;
  strength : option Q
}.

Record ImageAnalysisOptions : Type := mkImageAnalysisOptions {
  ana_imageBase64 : string;
  analysisType : option AnalysisType;
  detail : option Detail
}.

Record BatchGenerationOptions : Type := mkBatchGenerationOptions {
  prompts : list string;
  baseOptions : option BaseOptions
}.

(** [intensity] is an integer here; [0] is the one falsy value. *)
Record StyleTransferOptions : Type := mkStyleTransferOptions {
  st_imageBase64 : string;
  st_style : ArtisticStyle;
  intensity : option Z
}.

Record ImageMetadata : Type := mkImageMetadata {
  meta_prompt : option string;
  meta_model : option string;
  meta_timestamp : option string
}.

Record GeneratedImage : Type := mkGeneratedImage {
  base64 : string;
  mimeType : string;
  img_width : option Z;
  img_height : option Z;
  metadata : option ImageMetadata
}.

Inductive SafetyLevel : Type :=
| SafetyLow | SafetyMedium | SafetyHigh | SafetyBlockNone.

(** [GeminiConfig] as the caller gives it. *)
Record GeminiConfig : Type := mkGeminiConfig {
  apiKey : string;
  model : option string;
  safetyLevel : option SafetyLevel;
  maxRequestsPerMinute : option Z
}.

(** [this.config] after the constructor has merged the defaults in: the
    optional fields are all set. *)
Record ClientConfig : Type := mkClientConfig {
  cfg_apiKey : string;
  cfg_model : string;
  cfg_safetyLevel : SafetyLevel;
  cfg_maxRequestsPerMinute : Z
}.

Definition orDefault {A : Type} (given : option A) (default : A) : A :=
  match given with
  | Some value => value
  | None => default
  end.

(** The merge of the constructor:
    [{ model: ..., safetyLevel: 'MEDIUM', maxRequestsPerMinute: 10, ...config }]. *)
Definition constructorConfig (config : GeminiConfig) : ClientConfig :=
  mkClientConfig (apiKey config)
    (orDefault (model config) "gemini-2.5-flash-image-preview")
    (orDefault (safetyLevel config) SafetyMedium)
    (orDefault (maxRequestsPerMinute config) 10).

(** ** The world: the client's field, the clock and the remote model *)

(** The one inline part the client attaches: [{ data, mimeType }]. *)
Record InlineData : Type := mkInlineData {
  inline_data : string;
  inline_mimeType : string
}.

(** The argument of [model.generateContent]: one user turn with a text
    part and at most one image part. *)
Record GenerateContentRequest : Type := mkGenerateContentRequest {
  req_text : string;
  req_inlineData : option InlineData
}.

(** What [await result.response] gives: the client reads only
    [response.text()], which may throw. *)
Record GenerateContentResponse : Type := mkGenerateContentResponse {
  response_text : Result string
}.

Record World : Type := mkWorld {
  requestTimestamps : list Z;
  (** the successive readings of the system clock, in milliseconds *)
  clock : nat -> Z;
  clockReads : nat;
  (** what the remote model does with its k-th request: it throws, or
      returns a response *)
  remote : nat -> GenerateContentRequest -> Result GenerateContentResponse;
  remoteLog : list GenerateContentRequest
}.

Definition M (A : Type) : Type := World -> Result A * World.

Definition ret {A : Type} (value : A) : M A := fun w => (Ok value, w).

Definition throw {A : Type} (error : JsException) : M A :=
  fun w => (Throw error, w).

Definition bind {A B : Type} (m : M A) (k : A -> M B) : M B :=
  fun w =>
    match m w with
    | (Ok value, w') => k value w'
    | (Throw error, w') => (Throw error, w')
    end.

Notation "x <- m ;; k" := (bind m (fun x => k))
  (at level 61, m at next level, right associativity).
Notation "m ;;; k" := (bind m (fun _ => k))
  (at level 61, right associativity).

(** [try { body } catch (error) { handler }]: the effects of the body up
    to the throw stay. *)
Definition tryCatch {A : Type} (body : M A) (handler : JsException -> M A)
    : M A :=
  fun w =>
    match body w with
    | (Ok value, w') => (Ok value, w')
    | (Throw error, w') => handler error w'
    end.

Definition liftResult {A : Type} (r : Result A) : M A := fun w => (r, w).

(** [Date.now()], and the time value of [new Date()]. *)
Definition Date_now : M Z :=
  fun w =>
    (Ok (clock w (clockReads w)),
     mkWorld (requestTimestamps w) (clock w) (S (clockReads w))
       (remote w) (remoteLog w)).

Definition getRequestTimestamps : M (list Z) :=
  fun w => (Ok (requestTimestamps w), w).

Definition setRequestTimestamps (timestamps : list Z) : M unit :=
  fun w =>
    (Ok tt,
     mkWorld timestamps (clock w) (clockReads w) (remote w) (remoteLog w)).

(** [await this.model.generateContent(request)] followed by
    [await result.response]. *)
Definition model_generateContent (request : GenerateContentRequest)
    : M GenerateContentResponse :=
  fun w =>
    (remote w (List.length (remoteLog w)) request,
     mkWorld (requestTimestamps w) (clock w) (clockReads w) (remote w)
       (remoteLog w ++ [request])).

(** [error instanceof Error ? error.message : fallback]. *)
Definition messageOr (error : JsException) (fallback : string) : string :=
  match error with
  | JsError message => message
  | JsThrown _ => fallback
  end.

(** ** The client: [GeminiImageClient] *)

Definition mockBase64 : string :=
  "data:image/png;base64,iVBORw0KGgoAAAANSUhEUgAAAAEAAAABCAYAAAAfFcSJAAAADUlEQVR42mNkYPhfDwAChwGA60e6kgAAAABJRU5ErkJggg==".

Definition buildGenerationPrompt (options : ImageGenerationOptions) : string :=
  let prompt0 := prompt options in
  let prompt1 :=
    match style (gen_options options) with
    | Some Realistic | None => prompt0
    | Some s => (prompt0 ++ " in " ++ imageStyleName s ++ " style")%string
    end in
  let prompt2 :=
    match aspectRatio (gen_options options) with
    | Some r =>
        (prompt1 ++ " with " ++ aspectRatioName r ++ " aspect ratio")%string
    | None => prompt1
    end in
  match quality (gen_options options) with
  | Some High => (prompt2 ++ ", high quality, detailed")%string
  | Some Ultra =>
      (prompt2 ++ ", ultra high quality, extremely detailed, masterpiece")%string
  | _ => prompt2
  end.

Definition buildAnalysisPrompt (options : ImageAnalysisOptions) : string :=
  let type := orDefault (analysisType options) Description in
  let detail := orDefault (detail options) Medium in
  match type with
  | Description =>
      ("Provide a " ++ detailName detail
         ++ " detail description of this image.")%string
  | Objects =>
      "Identify and list all objects visible in this image with confidence scores."
  | Text => "Extract and transcribe any text visible in this image."
  | Colors =>
      "Analyze the color palette of this image, identifying dominant colors with their hex values."
  | Emotions =>
      "Analyze the emotional content and mood conveyed by this image."
  | ComprehensiveAnalysis =>
      "Provide a comprehensive analysis including description, objects, text, colors, emotions, and relevant tags."
  end.

Definition buildModificationPrompt (options : ImageModificationOptions)
    : string :=
  let prompt0 :=
    ("Modify this image according to the following instructions: "
       ++ instructions options)%string in
  match preserveStyle options with
  | Some true =>
      (prompt0
         ++ " Please preserve the original artistic style and composition.")%string
  | _ => prompt0
  end.

(** The template literal of [applyStyleTransfer]; the intensity clause
    is chosen by the truthiness of [options.intensity]. *)
Definition styleTransferInstructions (options : StyleTransferOptions)
    : string :=
  ("Apply " ++ artisticStyleName (st_style options) ++ " style to this image. "
     ++ match intensity options with
        | Some i =>
            if (i =? 0)%Z then EmptyString
            else "Use " ++ string_of_Z i ++ "% intensity for the style transfer."
        | None => EmptyString
        end)%string.

(** The object literal [applyStyleTransfer] passes to [modifyImage]. *)
Definition styleTransferModification (options : StyleTransferOptions)
    : ImageModificationOptions :=
  mkImageModificationOptions (st_imageBase64 options)
    (styleTransferInstructions options) (Some false) None.

Section Client.

(** [this.config], and [Date.prototype.toISOString] on a time value. *)
Variable config : ClientConfig.
Variable toISOString : Z -> string.

Definition checkRateLimit : M unit :=
  now <- Date_now ;;
  timestamps <- getRequestTimestamps ;;
  let (outcome, timestamps') :=
    checkRateLimitAt (cfg_maxRequestsPerMinute config) now timestamps in
  setRequestTimestamps timestamps' ;;;
  liftResult outcome.

(** [_response] is not read. *)
Definition extractImagesFromResponse (_response : GenerateContentResponse)
    (promptOfOptions : string) : M (list GeneratedImage) :=
  let images : list GeneratedImage := [] in
  tryCatch
    (now <- Date_now ;;
     let timestamp := toISOString now in
     let mockImage :=
       mkGeneratedImage mockBase64 "image/png" None None
         (Some (mkImageMetadata (Some promptOfOptions)
                  (Some (cfg_model config)) (Some timestamp))) in
     ret (images ++ [mockImage]))
    (fun _ => ret images).

Definition generateImage (options : ImageGenerationOptions)
    : M (list GeneratedImage) :=
  checkRateLimit ;;;
  tryCatch
    (let promptText := buildGenerationPrompt options in
     response <-
       model_generateContent (mkGenerateContentRequest promptText None) ;;
     extractImagesFromResponse response (prompt options))
    (fun error =>
       throw (JsError ("Image generation failed: "
                         ++ messageOr error "Unknown error")%string)).

(** [images[0]] is [undefined] ([None]) on an empty array. *)
Definition modifyImage (options : ImageModificationOptions)
    : M (option GeneratedImage) :=
  checkRateLimit ;;;
  tryCatch
    (let promptText := buildModificationPrompt options in
     let imagePart := mkInlineData (mod_imageBase64 options) "image/png" in
     response <-
       model_generateContent
         (mkGenerateContentRequest promptText (Some imagePart)) ;;
     images <- extractImagesFromResponse response (instructions options) ;;
     ret (hd_error images))
    (fun error =>
       throw (JsError ("Image modification failed: "
                         ++ messageOr error "Unknown error")%string)).

Definition analyzeImage (options : ImageAnalysisOptions) : M AnalysisResult :=
  checkRateLimit ;;;
  tryCatch
    (let promptText := buildAnalysisPrompt options in
     let imagePart := mkInlineData (ana_imageBase64 options) "image/png" in
     response <-
       model_generateContent
         (mkGenerateContentRequest promptText (Some imagePart)) ;;
     text <- liftResult (response_text response) ;;
     liftResult
       (parseAnalysisResult text
          (analysisTypeName (orDefault (analysisType options) Description))))
    (fun error =>
       throw (JsError ("Image analysis failed: "
                         ++ messageOr error "Unknown error")%string)).

(** The [for ... of] loop of [generateBatch], [results] being the
    array built so far. *)
Fixpoint generateBatchLoop (base : BaseOptions) (remaining : list string)
    (results : list GeneratedImage) : M (list GeneratedImage) :=
  match remaining with
  | [] => ret results
  | prompt :: later =>
      let imageOptions := mkImageGenerationOptions prompt base in
      images <- generateImage imageOptions ;;
      generateBatchLoop base later (results ++ images)
  end.

Definition generateBatch (options : BatchGenerationOptions)
    : M (list GeneratedImage) :=
  generateBatchLoop (orDefault (baseOptions options) noBaseOptions)
    (prompts options) [].

Definition applyStyleTransfer (options : StyleTransferOptions)
    : M (option GeneratedImage) :=
  modifyImage (styleTransferModification options).

End Client.

(** ** The gateway: the tool-call handler of [GeminiImageMCPServer] *)

Inductive ContentItem : Type :=
| TextContent (text : string)
| ImageContent (data : string) (mimeType : string).

(** The response envelope; [isError] is absent on success. *)
Record CallToolResult : Type := mkCallToolResult {
  content : list ContentItem;
  isError : option bool
}.

Definition lineFeed : string := String (ascii_of_N 10) EmptyString.
Definition doubleQuote : string := String (ascii_of_N 34) EmptyString.

Definition imageContent (image : GeneratedImage) : ContentItem :=
  ImageContent (base64 image) (mimeType image).

(** [lines.join(', ')]. *)
Fixpoint joinComma (lines : list string) : string :=
  match lines with
  | [] => EmptyString
  | [line] => line
  | line :: rest => (line ++ ", " ++ joinComma rest)%string
  end.

(** [options.analysisType || ...], [resultText.trim() || ...]: the
    empty string is falsy. *)
Definition orIfEmpty (s fallback : string) : string :=
  if isEmpty s then fallback else s.

(** The message of the [TypeError] raised by reading a property of
    [undefined]. *)
Definition undefinedPropertyMessage (property : string) : string :=
  ("Cannot read properties of undefined (reading '" ++ property ++ "')")%string.

(** The five tools of the catalogue returned for [ListToolsRequestSchema]. *)
Definition toolCatalogue : list string :=
  ["generateImage"; "modifyImage"; "analyzeImage"; "batchGenerate";
   "applyStyleTransfer"].

Section Gateway.

Variable config : ClientConfig.
Variable toISOString : Z -> string.

(** [Number.prototype.toFixed(1)] and [JSON.stringify(_, null, 2)]. *)
Variable toFixed1 : Q -> string.
Variable JSON_stringify : Comprehensive -> string.

(** The untyped [arguments] of a tool call, and the unchecked casts
    [args as unknown as ...Options] of the handler. *)
Variable Arguments : Type.
Variable asImageGenerationOptions : Arguments -> ImageGenerationOptions.
Variable asImageModificationOptions : Arguments -> ImageModificationOptions.
Variable asImageAnalysisOptions : Arguments -> ImageAnalysisOptions.
Variable asBatchGenerationOptions : Arguments -> BatchGenerationOptions.
Variable asStyleTransferOptions : Arguments -> StyleTransferOptions.

Record CallToolRequest : Type := mkCallToolRequest {
  params_name : string;
  params_arguments : Arguments
}.

Definition handleGenerateImage (options : ImageGenerationOptions)
    : M CallToolResult :=
  images <- generateImage config toISOString options ;;
  ret (mkCallToolResult
         (TextContent
            ("Successfully generated " ++ string_of_nat (List.length images)
               ++ " image(s) for prompt: " ++ doubleQuote ++ prompt options
               ++ doubleQuote)%string
          :: map imageContent images)
         None).

Definition handleModifyImage (options : ImageModificationOptions)
    : M CallToolResult :=
  image <- modifyImage config toISOString options ;;
  match image with
  | Some image =>
      ret (mkCallToolResult
             [TextContent
                ("Successfully modified image with instructions: "
                   ++ doubleQuote ++ instructions options ++ doubleQuote)%string;
              imageContent image]
             None)
  | None => throw (JsError (undefinedPropertyMessage "base64"))
  end.

Definition renderObject (obj : DetectedObject) : string :=
  ("- " ++ obj_name obj ++ " (confidence: "
     ++ toFixed1 (obj_confidence obj * 100)%Q ++ "%)" ++ lineFeed)%string.

Definition renderColor (color : DominantColor) : string :=
  ("- " ++ color_name color ++ " (" ++ color_hex color ++ ") - "
     ++ string_of_Z (color_percentage color) ++ "%" ++ lineFeed)%string.

Definition renderEmotion (emotion : DetectedEmotion) : string :=
  ("- " ++ emo_emotion emotion ++ " (confidence: "
     ++ toFixed1 (emo_confidence emotion * 100)%Q ++ "%)" ++ lineFeed)%string.

(** [header], then one rendered line per element ([forEach]). *)
Definition renderSection {A : Type} (resultText header : string)
    (render : A -> string) (items : list A) : string :=
  fold_left (fun acc item => (acc ++ render item)%string) items
    (resultText ++ header)%string.

Definition analysisText (analysis : AnalysisResult) : string :=
  let t0 := EmptyString in
  let t1 :=
    match description analysis with
    | Some d =>
        if isEmpty d then t0
        else (t0 ++ "Description: " ++ d ++ lineFeed ++ lineFeed)%string
    | None => t0
    end in
  let t2 :=
    match objects analysis with
    | Some (o :: os) =>
        (renderSection t1 ("Objects detected:" ++ lineFeed) renderObject
           (o :: os) ++ lineFeed)%string
    | _ => t1
    end in
  let t3 :=
    match text_ analysis with
    | Some (l :: ls) =>
        (t2 ++ "Text found: " ++ joinComma (l :: ls)
           ++ lineFeed ++ lineFeed)%string
    | _ => t2
    end in
  let t4 :=
    match colors analysis with
    | Some (c :: cs) =>
        (renderSection t3 ("Dominant colors:" ++ lineFeed) renderColor
           (c :: cs) ++ lineFeed)%string
    | _ => t3
    end in
  let t5 :=
    match emotions analysis with
    | Some (e :: es) =>
        renderSection t4 ("Emotions detected:" ++ lineFeed) renderEmotion
          (e :: es)
    | _ => t4
    end in
  match comprehensive analysis with
  | Some c => JSON_stringify c
  | None => t5
  end.

Definition handleAnalyzeImage (options : ImageAnalysisOptions)
    : M CallToolResult :=
  analysis <- analyzeImage config options ;;
  let resultText := analysisText analysis in
  ret (mkCallToolResult
         [TextContent
            (orIfEmpty (trim resultText)
               "Analysis completed but no specific results were extracted.")]
         None).

Definition handleBatchGenerate (options : BatchGenerationOptions)
    : M CallToolResult :=
  images <- generateBatch config toISOString options ;;
  ret (mkCallToolResult
         (TextContent
            ("Successfully generated " ++ string_of_nat (List.length images)
               ++ " images from "
               ++ string_of_nat (List.length (prompts options))
               ++ " prompts")%string
          :: map imageContent images)
         None).

Definition handleStyleTransfer (options : StyleTransferOptions)
    : M CallToolResult :=
  image <- applyStyleTransfer config toISOString options ;;
  match image with
  | Some image =>
      ret (mkCallToolResult
             [TextContent
                ("Successfully applied " ++ artisticStyleName (st_style options)
                   ++ " style to the image")%string;
              imageContent image]
             None)
  | None => throw (JsError (undefinedPropertyMessage "base64"))
  end.

(** The [switch (name)] inside the [try]. *)
Definition dispatchTool (name : string) (args : Arguments)
    : M CallToolResult :=
  if (name =? "generateImage")%string then
    handleGenerateImage (asImageGenerationOptions args)
  else if (name =? "modifyImage")%string then
    handleModifyImage (asImageModificationOptions args)
  else if (name =? "analyzeImage")%string then
    handleAnalyzeImage (asImageAnalysisOptions args)
  else if (name =? "batchGenerate")%string then
    handleBatchGenerate (asBatchGenerationOptions args)
  else if (name =? "applyStyleTransfer")%string then
    handleStyleTransfer (asStyleTransferOptions args)
  else
    throw (JsError ("Unknown tool: " ++ name)%string).

(** The envelope of the [catch] clause. *)
Definition errorEnvelope (error : JsException) : CallToolResult :=
  let errorMessage := messageOr error "Unknown error occurred" in
  mkCallToolResult [TextContent ("Error: " ++ errorMessage)%string]
    (Some true).

(** The handler registered for [CallToolRequestSchema]. *)
Definition callToolHandler (request : CallToolRequest) : M CallToolResult :=
  let name := params_name request in
  let args := params_arguments request in
  tryCatch (dispatchTool name args)
    (fun error => ret (errorEnvelope error)).

End Gateway.

(** ** Vocabulary of the properties *)

(** The field groups of an [AnalysisResult]. *)
Inductive FieldGroup : Type :=
| GroupDescription | GroupObjects | GroupText | GroupColors | GroupEmotions
| GroupComprehensive.

Definition isSome {A : Type} (field : option A) : bool :=
  match field with
  | Some _ => true
  | None => false
  end.

(** The field group is present in the result. *)
Definition populated (result : AnalysisResult) (group : FieldGroup) : bool :=
  match group with
  | GroupDescription => isSome (description result)
  | GroupObjects => isSome (objects result)
  | GroupText => isSome (text_ result)
  | GroupColors => isSome (colors result)
  | GroupEmotions => isSome (emotions result)
  | GroupComprehensive => isSome (comprehensive result)
  end.

(** The field group that matches an analysis type: the description for
    ["description"] and for every type that is not one of the six. *)
Definition groupOfType (analysisType : string) : FieldGroup :=
  if (analysisType =? "objects")%string then GroupObjects
  else if (analysisType =? "text")%string then GroupText
  else if (analysisType =? "colors")%string then GroupColors
  else if (analysisType =? "emotions")%string then GroupEmotions
  else if (analysisType =? "comprehensive")%string then GroupComprehensive
  else GroupDescription.

Definition throws {A : Type} (r : Result A) : bool :=
  match r with
  | Ok _ => false
  | Throw _ => true
  end.

(** The extraction step that [parseAnalysisResult] runs for the type
    raises. *)
Definition extractionRaises (this : Extractors) (text analysisType : string)
    : bool :=
  match groupOfType analysisType with
  | GroupDescription => false
  | GroupObjects => throws (ex_parseObjects this text)
  | GroupText => throws (ex_parseText this text)
  | GroupColors => throws (ex_parseColors this text)
  | GroupEmotions => throws (ex_parseEmotions this text)
  | GroupComprehensive => throws (ex_parseComprehensive this text)
  end.

(** The request [generateImage] sends for its options. *)
Definition generationRequest (options : ImageGenerationOptions)
    : GenerateContentRequest :=
  mkGenerateContentRequest (buildGenerationPrompt options) None.

(** A chain of calls of the single-prompt path, one per prompt and in
    the order of the prompts, each starting in the world the one before
    left and each returning its images. *)
Inductive batchCalls (config : ClientConfig) (toISOString : Z -> string)
    (base : BaseOptions)
    : World -> list string -> list (list GeneratedImage) -> World -> Prop :=
| batchCalls_done : forall w, batchCalls config toISOString base w [] [] w
| batchCalls_next : forall w prompt later images produced w1 w2,
    generateImage config toISOString (mkImageGenerationOptions prompt base) w
      = (Ok images, w1) ->
    batchCalls config toISOString base w1 later produced w2 ->
    batchCalls config toISOString base w (prompt :: later)
      (images :: produced) w2.

(** The checks at [times] are all within one window of 60 seconds. *)
Definition withinWindow (times : list Z) : Prop :=
  forall a b, In a times -> In b times -> a - b < windowMs.

(** Every value the computation throws is an [Error] instance. *)
Definition throwsOnlyErrors {A : Type} (m : M A) : Prop :=
  forall w error w', m w = (Throw error, w') ->
    exists message, error = JsError message.

(** An extractor record whose object extraction throws. *)
Definition failingExtractors : Extractors :=
  mkExtractors
    (fun _ => Throw (JsError "extraction failed"))
    (fun text => Ok (parseText text))
    (fun text => Ok (parseColors text))
    (fun text => Ok (parseEmotions text))
    (fun text => Ok (parseComprehensive text)).

(** A remote model that answers every request with a text, a client
    that has made no call at a clock that ticks once a second, and a
    configuration with the default limit: the inputs of the examples. *)
Definition quietRemote
    : nat -> GenerateContentRequest -> Result GenerateContentResponse :=
  fun _ _ => Ok (mkGenerateContentResponse (Ok "no image here")).

Definition freshWorld : World :=
  mkWorld [] (fun k => 1000 * Z.of_nat k) 0 quietRemote [].

Definition plainConfig : ClientConfig :=
  mkClientConfig "key" "gemini-2.5-flash-image-preview" SafetyMedium 10.

(** ** Vocabulary of the further properties *)



(** The requests [modifyImage] and [analyzeImage] send for their
    options. *)
Definition modificationRequest (options : ImageModificationOptions)
    : GenerateContentRequest :=
  mkGenerateContentRequest (buildModificationPrompt options)
    (Some (mkInlineData (mod_imageBase64 options) "image/png")).

Definition analysisRequest (options : ImageAnalysisOptions)
    : GenerateContentRequest :=
  mkGenerateContentRequest (buildAnalysisPrompt options)
    (Some (mkInlineData (ana_imageBase64 options) "image/png")).

(** What the remote model does with the next request it receives. *)
Definition remoteAnswer (w : World) (request : GenerateContentRequest)
    : Result GenerateContentResponse :=
  remote w (List.length (remoteLog w)) request.

(** The image every extraction produces, for the prompt recorded in its
    metadata and the time stamp of its creation. *)
Definition mockImageFor (config : ClientConfig) (promptOfOptions : string)
    (timestamp : string) : GeneratedImage :=
  mkGeneratedImage mockBase64 "image/png" None None
    (Some (mkImageMetadata (Some promptOfOptions) (Some (cfg_model config))
             (Some timestamp))).

(** [image.metadata?.prompt]. *)
Definition metadataPrompt (image : GeneratedImage) : option string :=
  match metadata image with
  | Some meta => meta_prompt meta
  | None => None
  end.


(** A remote model that fails on every request. *)
Definition failingRemote
    : nat -> GenerateContentRequest -> Result GenerateContentResponse :=
  fun _ _ => Throw (JsError "quota exhausted").



Definition isNil {A : Type} (l : list A) : bool :=
  match l with
  | [] => true
  | _ :: _ => false
  end.

(** The extraction of the type finds nothing in the text (for the
    description: the text is empty). *)
Definition extractsNothing (type : AnalysisType) (text : string) : bool :=
  match type with
  | Description => isEmpty text
  | Objects => isNil (parseObjects text)
  | Text => isNil (parseText text)
  | Colors => isNil (parseColors text)
  | Emotions => isNil (parseEmotions text)
  | ComprehensiveAnalysis => false
  end.

(** Every envelope the computation returns is without the error
    flag. *)
Definition returnsUnflagged (m : M CallToolResult) : Prop :=
  forall w envelope w', m w = (Ok envelope, w') -> isError envelope = None.

(** Some character of the string is of the class; all are. *)
Fixpoint anyChar (p : ascii -> bool) (s : string) : bool :=
  match s with
  | EmptyString => false
  | String c rest => p c || anyChar p rest
  end.

Fixpoint allChars (p : ascii -> bool) (s : string) : bool :=
  match s with
  | EmptyString => true
  | String c rest => p c && allChars p rest
  end.

(** The character of the given code occurs in the string. *)
Definition hasChar (code : N) (s : string) : bool :=
  anyChar (fun c => (charCode c =? code)%N) s.

(** A [#] followed by exactly six hexadecimal digits. *)
Definition isHexColor (s : string) : bool :=
  match s with
  | String c digits =>
      (charCode c =? 35)%N && (String.length digits =? 6)%nat
      && allChars isHexDigit digits
  | EmptyString => false
  end.

(** The character is not white space. *)
Definition isInk (c : ascii) : bool := negb (isWhiteSpace c).


(** ** The safety settings of the model: [getSafetySettings] *)

(** The members of [HarmCategory] and [HarmBlockThreshold] (of the
    client library of the remote service) that the source names. *)
Inductive HarmCategory : Type :=
| HARM_CATEGORY_HARASSMENT
| HARM_CATEGORY_HATE_SPEECH
| HARM_CATEGORY_SEXUALLY_EXPLICIT
| HARM_CATEGORY_DANGEROUS_CONTENT.

Inductive HarmBlockThreshold : Type :=
| BLOCK_ONLY_HIGH
| BLOCK_LOW_AND_ABOVE
| BLOCK_NONE
| BLOCK_MEDIUM_AND_ABOVE.

Record SafetySetting : Type := mkSafetySetting {
  category : HarmCategory;
  threshold : HarmBlockThreshold
}.

Definition getSafetySettings (config : ClientConfig) : list SafetySetting :=
  let level := cfg_safetyLevel config in
  let threshold :=
    match level with
    | SafetyLow => BLOCK_ONLY_HIGH
    | SafetyHigh => BLOCK_LOW_AND_ABOVE
    | SafetyBlockNone => BLOCK_NONE
    | _ => BLOCK_MEDIUM_AND_ABOVE
    end in
  [mkSafetySetting HARM_CATEGORY_HARASSMENT threshold;
   mkSafetySetting HARM_CATEGORY_HATE_SPEECH threshold;
   mkSafetySetting HARM_CATEGORY_SEXUALLY_EXPLICIT threshold;
   mkSafetySetting HARM_CATEGORY_DANGEROUS_CONTENT threshold].

(** * Properties *)

(** ** The rate limiter *)

Lemma prune_keeps_window (now : Z) (timestamps : list Z) :
  (forall t, In t timestamps -> now - t < windowMs) ->
  pruneTimestamps now timestamps = timestamps.
Proof.
  unfold pruneTimestamps. induction timestamps as [|x xs IH]; intros H.
  - reflexivity.
  - simpl. assert (Hx : now - x < windowMs) by (apply H; left; reflexivity).
    replace (x >? now - windowMs) with true by (symmetry; apply Z.gtb_lt; lia).
    f_equal. apply IH. intros t Ht. apply H. right. exact Ht.
Qed.

Lemma prune_drops_old (now : Z) (timestamps : list Z) :
  (forall t, In t timestamps -> t <= now - windowMs) ->
  pruneTimestamps now timestamps = [].
Proof.
  unfold pruneTimestamps. induction timestamps as [|x xs IH]; intros H.
  - reflexivity.
  - simpl. assert (Hx : x <= now - windowMs) by (apply H; left; reflexivity).
    destruct (x >? now - windowMs) eqn:E.
    + apply Z.gtb_lt in E. lia.
    + apply IH. intros t Ht. apply H. right. exact Ht.
Qed.

Lemma prune_spec (now t : Z) (timestamps : list Z) :
  In t (pruneTimestamps now timestamps) <->
  In t timestamps /\ now - t < windowMs.
Proof.
  unfold pruneTimestamps. rewrite filter_In.
  split; intros [H1 H2]; split; try exact H1.
  - apply Z.gtb_lt in H2. lia.
  - apply Z.gtb_lt. lia.
Qed.

Lemma Math_min_least (xs : list Z) :
  xs <> [] ->
  exists m, Math_min xs = Num m /\ In m xs /\ forall x, In x xs -> m <= x.
Proof.
  induction xs as [|x rest IH]; intros Hne; [congruence|].
  destruct rest as [|y rest'].
  - exists x. simpl. split; [reflexivity|]. split; [left; reflexivity|].
    intros z [<-|[]]. lia.
  - destruct IH as (m & Hm & Hin & Hle); [discriminate|].
    exists (Z.min x m). split.
    + change (Math_min (x :: y :: rest'))
        with (match Math_min (y :: rest') with
              | Num m0 => Num (Z.min x m0)
              | _ => Num x
              end).
      rewrite Hm. reflexivity.
    + split.
      * destruct (Z.min_spec x m) as [[_ ->]|[_ ->]];
          [left; reflexivity | right; exact Hin].
      * intros z [<-|Hz]; [lia|]. specialize (Hle z Hz). lia.
Qed.

Lemma check_admits (limit now : Z) (timestamps : list Z) :
  Z.of_nat (List.length (pruneTimestamps now timestamps)) < limit ->
  checkRateLimitAt limit now timestamps
  = (Ok tt, pruneTimestamps now timestamps ++ [now]).
Proof.
  intros H. unfold checkRateLimitAt. cbv zeta.
  destruct (Z.of_nat (List.length (pruneTimestamps now timestamps)) >=? limit)
    eqn:E; [apply Z.geb_le in E; lia | reflexivity].
Qed.

Lemma check_rejects (limit now : Z) (timestamps : list Z) :
  limit <= Z.of_nat (List.length (pruneTimestamps now timestamps)) ->
  checkRateLimitAt limit now timestamps
  = (Throw (JsError (rateLimitMessage
                       (rateLimitWaitTime now (pruneTimestamps now timestamps)))),
     pruneTimestamps now timestamps).
Proof.
  intros H. unfold checkRateLimitAt. cbv zeta.
  destruct (Z.of_nat (List.length (pruneTimestamps now timestamps)) >=? limit)
    eqn:E; [reflexivity | rewrite Z.geb_leb in E; apply Z.leb_gt in E; lia].
Qed.


Lemma admitAll_run (limit : Z) (upcoming done current : list Z) :
  (forall t, In t upcoming -> pruneTimestamps t current = done) ->
  withinWindow (done ++ upcoming) ->
  Z.of_nat (List.length (done ++ upcoming)) <= limit ->
  admitAll limit upcoming current
  = Some (match upcoming with [] => current | _ :: _ => done ++ upcoming end).
Proof.
  revert done current.
  induction upcoming as [|t later IH]; intros done current Hprune Hwin Hlen.
  - reflexivity.
  - simpl admitAll.
    assert (Hcur : pruneTimestamps t current = done)
      by (apply Hprune; left; reflexivity).
    rewrite check_admits.
    2:{ rewrite Hcur. rewrite length_app in Hlen. simpl in Hlen. lia. }
    rewrite Hcur.
    rewrite (IH (done ++ [t]) (done ++ [t])).
    + rewrite <- app_assoc. simpl. destruct later; reflexivity.
    + intros t' Ht'. apply prune_keeps_window. intros a Ha.
      apply Hwin; apply in_or_app.
      * right. right. exact Ht'.
      * apply in_app_or in Ha. destruct Ha as [Ha|[<-|[]]];
          [left; exact Ha | right; left; reflexivity].
    + rewrite <- app_assoc. exact Hwin.
    + rewrite <- app_assoc. exact Hlen.
Qed.

(** The wait computed on the pruned sequence is positive: every time
    stamp that remains is less than a minute old. *)
Lemma wait_time_positive (now : Z) (timestamps : list Z) :
  let remaining := pruneTimestamps now timestamps in
  let retryAfterMs := jsSub (Num 60000) (jsSub (Num now) (Math_min remaining)) in
  jsPositive retryAfterMs /\
  forall oldest, In oldest remaining ->
    (forall t, In t remaining -> oldest <= t) ->
    retryAfterMs = Num (60000 - (now - oldest)).
Proof.
  cbv zeta. destruct (pruneTimestamps now timestamps) as [|t0 ts] eqn:E.
  - split; [exact I|]. intros oldest [].
  - destruct (Math_min_least (t0 :: ts)) as (m & Hm & Hin & Hle); [discriminate|].
    rewrite Hm.
    assert (Hnow : now - m < windowMs).
    { rewrite <- E in Hin. apply prune_spec in Hin. apply Hin. }
    unfold windowMs in Hnow. split.
    + cbn [jsPositive jsSub jsAdd jsNeg]. lia.
    + intros oldest Ho Hleast. cbn [jsSub jsAdd jsNeg]. f_equal.
      assert (oldest = m)
        by (specialize (Hle _ Ho); specialize (Hleast _ Hin); lia).
      subst. lia.
Qed.

Lemma window_run (N : nat) (times : list Z) (now : Z)
    (timestamps : list Z) :
  List.length times = N ->
  withinWindow (times ++ [now]) ->
  (forall old t, In old timestamps -> In t (times ++ [now]) ->
     old <= t - windowMs) ->
  (forall earlier t later, times = earlier ++ t :: later ->
     exists before,
       admitAll (Z.of_nat N) earlier timestamps = Some before /\
       checkRateLimitAt (Z.of_nat N) t before = (Ok tt, earlier ++ [t])) /\
  exists before,
    admitAll (Z.of_nat N) times timestamps = Some before /\
    pruneTimestamps now before = times /\
    let retryAfterMs := jsSub (Num 60000) (jsSub (Num now) (Math_min times)) in
    checkRateLimitAt (Z.of_nat N) now before
    = (Throw (JsError (rateLimitMessage retryAfterMs)), times) /\
    jsPositive retryAfterMs /\
    forall oldest, In oldest times -> (forall t, In t times -> oldest <= t) ->
      retryAfterMs = Num (60000 - (now - oldest)).
Proof.
  intros Hlen Hwin Hold.
  assert (Hrun : forall upcoming rest, times ++ [now] = upcoming ++ rest ->
            (List.length upcoming <= N)%nat ->
            admitAll (Z.of_nat N) upcoming timestamps
            = Some (match upcoming with [] => timestamps | _ :: _ => upcoming end)).
  { intros upcoming rest Heq Hle.
    rewrite (admitAll_run (Z.of_nat N) upcoming [] timestamps).
    - reflexivity.
    - intros t Ht. apply prune_drops_old. intros old Ho. apply Hold; [exact Ho|].
      rewrite Heq. apply in_or_app. left. exact Ht.
    - simpl. intros a b Ha Hb. apply Hwin; rewrite Heq; apply in_or_app; left;
        assumption.
    - change ([] ++ upcoming) with upcoming. apply Nat2Z.inj_le. exact Hle. }
  assert (Hstate : forall upcoming t rest, times ++ [now] = upcoming ++ t :: rest ->
            pruneTimestamps t
              (match upcoming with [] => timestamps | _ :: _ => upcoming end)
            = upcoming).
  { intros upcoming t rest Heq. destruct upcoming as [|u us].
    - apply prune_drops_old. intros old Ho. apply Hold; [exact Ho|].
      rewrite Heq. left. reflexivity.
    - apply prune_keeps_window. intros a Ha. apply Hwin; rewrite Heq.
      + apply in_or_app. right. left. reflexivity.
      + apply in_or_app. left. exact Ha. }
  split.
  - intros earlier t later Heq.
    assert (Heq' : times ++ [now] = earlier ++ t :: (later ++ [now]))
      by (rewrite Heq, <- app_assoc; reflexivity).
    assert (Hshort : (List.length earlier < N)%nat).
    { rewrite <- Hlen, Heq, length_app. simpl. lia. }
    eexists. split.
    + apply (Hrun earlier (t :: later ++ [now]) Heq'). lia.
    + rewrite check_admits; rewrite (Hstate earlier t _ Heq'); [reflexivity | lia].
  - eexists. split; [apply (Hrun times [now] eq_refl); lia|].
    assert (Hp := Hstate times now [] eq_refl).
    split; [exact Hp|]. cbv zeta.
    split; [rewrite check_rejects; rewrite Hp; [reflexivity | lia]|].
    destruct times as [|t0 ts].
    + split; [exact I|]. intros oldest [].
    + destruct (Math_min_least (t0 :: ts)) as (m & Hm & Hin & Hle); [discriminate|].
      rewrite Hm.
      assert (Hnow : now - m < windowMs).
      { apply Hwin; apply in_or_app; [right; left; reflexivity | left; exact Hin]. }
      unfold windowMs in Hnow.
      split.
      * cbn [jsPositive jsSub jsAdd jsNeg]. lia.
      * intros oldest Ho Hleast. cbn [jsSub jsAdd jsNeg]. f_equal.
        assert (oldest = m) by (specialize (Hle _ Ho); specialize (Hleast _ Hin); lia).
        subst. lia.
Qed.

(** C1. For a client whose limit is [N], in every state and at every
    time: a check that finds fewer than [N] calls in its trailing
    minute is admitted and appends the current time, and a check that
    finds [N] or more is rejected with
    [retryAfterMs = 60000 - (now - oldest)], the oldest being the least
    of the remaining time stamps; that value is strictly positive (it is
    [Infinity] when nothing remains, which takes [N = 0]).  In
    particular, of [N] checks at [times] and one more at [now], all
    within one window of 60 seconds which no earlier call reaches into,
    each of the first [N], the [N]-th included, is admitted and the
    [(N+1)]-th is rejected. *)
Theorem rate_limit_window (N : nat) :
  (forall now timestamps,
     let remaining := pruneTimestamps now timestamps in
     let retryAfterMs :=
       jsSub (Num 60000) (jsSub (Num now) (Math_min remaining)) in
     ((List.length remaining < N)%nat ->
      checkRateLimitAt (Z.of_nat N) now timestamps
      = (Ok tt, remaining ++ [now])) /\
     ((N <= List.length remaining)%nat ->
      checkRateLimitAt (Z.of_nat N) now timestamps
      = (Throw (JsError (rateLimitMessage retryAfterMs)), remaining) /\
      jsPositive retryAfterMs /\
      forall oldest, In oldest remaining ->
        (forall t, In t remaining -> oldest <= t) ->
        retryAfterMs = Num (60000 - (now - oldest)))) /\
  (forall times now timestamps,
     List.length times = N ->
     withinWindow (times ++ [now]) ->
     (forall old t, In old timestamps -> In t (times ++ [now]) ->
        old <= t - windowMs) ->
     (forall earlier t later, times = earlier ++ t :: later ->
        exists before,
          admitAll (Z.of_nat N) earlier timestamps = Some before /\
          checkRateLimitAt (Z.of_nat N) t before = (Ok tt, earlier ++ [t])) /\
     exists before,
       admitAll (Z.of_nat N) times timestamps = Some before /\
       pruneTimestamps now before = times /\
       let retryAfterMs := jsSub (Num 60000) (jsSub (Num now) (Math_min times)) in
       checkRateLimitAt (Z.of_nat N) now before
       = (Throw (JsError (rateLimitMessage retryAfterMs)), times) /\
       jsPositive retryAfterMs /\
       forall oldest, In oldest times -> (forall t, In t times -> oldest <= t) ->
         retryAfterMs = Num (60000 - (now - oldest))).
Proof.
  split.
  - intros now timestamps. cbv zeta. split.
    + intros Hlt. apply check_admits. lia.
    + intros Hge. split; [apply check_rejects; lia|].
      apply (wait_time_positive now timestamps).
  - intros times now timestamps. apply window_run.
Qed.

Lemma rate_limit_window_witness :
  checkRateLimitAt 2 1000 [0] = (Ok tt, [0; 1000]) /\
  checkRateLimitAt 2 2000 [0; 1000]
  = (Throw (JsError "Rate limit exceeded. Please wait 58 seconds."), [0; 1000]).
Proof.
  destruct (rate_limit_window 2) as [_ H].
  destruct (H [0; 1000] 2000 [-70000; -60000]) as [Hadmit Hreject].
  - reflexivity.
  - intros a b Ha Hb. unfold windowMs. simpl in Ha, Hb. intuition lia.
  - intros old t Ho Ht. unfold windowMs. simpl in Ho, Ht. intuition lia.
  - split.
    + destruct (Hadmit [0] 1000 [] eq_refl) as (before & Hrun & Hcheck).
      vm_compute in Hrun. injection Hrun as <-. exact Hcheck.
    + destruct Hreject as (before & Hrun & _ & Hcheck & _).
      vm_compute in Hrun. injection Hrun as <-. exact Hcheck.
Defined.

Lemma check_state_pruned (limit now : Z) (timestamps : list Z) (t : Z) :
  In t (snd (checkRateLimitAt limit now timestamps)) -> now - t < windowMs.
Proof.
  unfold checkRateLimitAt. cbv zeta.
  destruct (Z.of_nat (List.length (pruneTimestamps now timestamps)) >=? limit);
    simpl; intros H.
  - apply prune_spec in H. apply H.
  - apply in_app_or in H. destruct H as [H|[<-|[]]].
    + apply prune_spec in H. apply H.
    + unfold windowMs. lia.
Qed.

(** A client that has recorded a call has a limit of at least one. *)
Lemma reachable_recorded_limit (limit : Z) (timestamps : list Z) :
  reachableTimestamps limit timestamps -> timestamps <> [] -> 0 < limit.
Proof.
  induction 1 as [|now timestamps Hreach IH]; intros Hne; [congruence|].
  unfold checkRateLimitAt in Hne. cbv zeta in Hne.
  destruct (Z.of_nat (List.length (pruneTimestamps now timestamps)) >=? limit)
    eqn:E; simpl in Hne.
  - apply IH. intros ->. apply Hne. reflexivity.
  - rewrite Z.geb_leb in E. apply Z.leb_gt in E. lia.
Qed.

(** C3. After an admission check at [now], admitted or rejected, every
    time stamp of the sequence is less than 60000 ms old at [now]; and
    in a client that has recorded calls, a check made more than 60
    seconds after the most recent of them is admitted, however many
    calls the sequence held.  (A client that has recorded a call has a
    limit of at least one; with such a limit the check is admitted in
    every state whose time stamps are all that old.) *)
Theorem pruning_invariant (limit now : Z) (timestamps : list Z) :
  (forall t, In t (snd (checkRateLimitAt limit now timestamps)) ->
     now - t < 60000) /\
  (reachableTimestamps limit timestamps ->
   forall recent, In recent timestamps ->
     (forall t, In t timestamps -> t <= recent) ->
     60000 < now - recent ->
     checkRateLimitAt limit now timestamps = (Ok tt, [now])) /\
  (0 < limit ->
   (forall t, In t timestamps -> 60000 < now - t) ->
   checkRateLimitAt limit now timestamps = (Ok tt, [now])).
Proof.
  assert (Hold : 0 < limit ->
                 (forall t, In t timestamps -> 60000 < now - t) ->
                 checkRateLimitAt limit now timestamps = (Ok tt, [now])).
  { intros Hlimit Hlate.
    assert (Hp : pruneTimestamps now timestamps = []).
    { apply prune_drops_old. intros t Ht. specialize (Hlate t Ht).
      unfold windowMs. lia. }
    rewrite check_admits; rewrite Hp; [reflexivity | simpl; lia]. }
  split; [|split].
  - intros t. apply check_state_pruned.
  - intros Hreach recent Hin Hmax Hlate. apply Hold.
    + apply (reachable_recorded_limit limit timestamps Hreach).
      intros ->. exact Hin.
    + intros t Ht. specialize (Hmax t Ht). lia.
  - exact Hold.
Qed.

Lemma pruning_invariant_witness :
  checkRateLimitAt 2 70000 [0; 5000] = (Ok tt, [70000]).
Proof.
  apply (proj1 (proj2 (pruning_invariant 2 70000 [0; 5000])))
    with (recent := 5000).
  - apply (reach_check 2 5000 [0]). apply (reach_check 2 0 []).
    apply reach_initial.
  - simpl. right. left. reflexivity.
  - intros t Ht. simpl in Ht. intuition lia.
  - lia.
Defined.

(** ** The result parser *)

(** C2. Whatever the raw text and the analysis type, recognised or not,
    and whatever the extraction methods do, [parseAnalysisResult]
    returns an [AnalysisResult] and does not throw; when the extraction
    step of the type raises, the result is the raw text as its
    description and nothing else.  The parser of the class is the
    instance [clientExtractors]. *)
Theorem parse_never_throws (this : Extractors) (text analysisType : string) :
  (exists result, parseAnalysisResultWith this text analysisType = Ok result /\
     (extractionRaises this text analysisType = true ->
      result = mkAnalysisResult (Some text) None None None None None)) /\
  exists result, parseAnalysisResult text analysisType = Ok result.
Proof.
  assert (H : forall this', exists result,
             parseAnalysisResultWith this' text analysisType = Ok result /\
             (extractionRaises this' text analysisType = true ->
              result = mkAnalysisResult (Some text) None None None None None)).
  { intros this'.
    unfold parseAnalysisResultWith, extractionRaises, groupOfType.
    destruct (analysisType =? "description")%string eqn:Ed.
    - apply String.eqb_eq in Ed. subst analysisType. simpl.
      eexists. split; [reflexivity | discriminate].
    - destruct (analysisType =? "objects")%string.
      { destruct (ex_parseObjects this' text); simpl; eexists;
          (split; [reflexivity | try discriminate; reflexivity]). }
      destruct (analysisType =? "text")%string.
      { destruct (ex_parseText this' text); simpl; eexists;
          (split; [reflexivity | try discriminate; reflexivity]). }
      destruct (analysisType =? "colors")%string.
      { destruct (ex_parseColors this' text); simpl; eexists;
          (split; [reflexivity | try discriminate; reflexivity]). }
      destruct (analysisType =? "emotions")%string.
      { destruct (ex_parseEmotions this' text); simpl; eexists;
          (split; [reflexivity | try discriminate; reflexivity]). }
      destruct (analysisType =? "comprehensive")%string.
      { destruct (ex_parseComprehensive this' text); simpl; eexists;
          (split; [reflexivity | try discriminate; reflexivity]). }
      simpl. eexists. split; [reflexivity | discriminate]. }
  split.
  - apply H.
  - destruct (H clientExtractors) as (result & Hr & _). exists result. exact Hr.
Qed.

Lemma parse_never_throws_witness :
  exists result,
    parseAnalysisResultWith failingExtractors "cat: 85%" "objects" = Ok result /\
    result = mkAnalysisResult (Some "cat: 85%") None None None None None.
Proof.
  destruct (proj1 (parse_never_throws failingExtractors "cat: 85%" "objects"))
    as (result & Hr & Hfallback).
  exists result. split; [exact Hr | apply Hfallback; reflexivity].
Defined.

(** C6. The result of [parseAnalysisResult] has exactly one field group
    present, the one that matches the analysis type: the description
    for ["description"] and for an unrecognised type, and for
    ["comprehensive"] the composite alone, the other five being
    absent. *)
Theorem parse_one_field_group (text analysisType : string) :
  exists result,
    parseAnalysisResult text analysisType = Ok result /\
    (forall group,
       populated result group = true <-> group = groupOfType analysisType) /\
    result =
      match groupOfType analysisType with
      | GroupDescription => mkAnalysisResult (Some text) None None None None None
      | GroupObjects =>
          mkAnalysisResult None (Some (parseObjects text)) None None None None
      | GroupText =>
          mkAnalysisResult None None (Some (parseText text)) None None None
      | GroupColors =>
          mkAnalysisResult None None None (Some (parseColors text)) None None
      | GroupEmotions =>
          mkAnalysisResult None None None None (Some (parseEmotions text)) None
      | GroupComprehensive =>
          mkAnalysisResult None None None None None
            (Some (mkComprehensive text [] [] [] [] []))
      end.
Proof.
  unfold parseAnalysisResult, parseAnalysisResultWith, groupOfType.
  destruct (analysisType =? "description")%string eqn:Ed.
  - apply String.eqb_eq in Ed. subst analysisType. simpl.
    eexists. split; [reflexivity|]. split; [|reflexivity].
    intros []; simpl; split; intros H; congruence.
  - destruct (analysisType =? "objects")%string;
      [|destruct (analysisType =? "text")%string;
        [|destruct (analysisType =? "colors")%string;
          [|destruct (analysisType =? "emotions")%string;
            [|destruct (analysisType =? "comprehensive")%string]]]];
      simpl; eexists; (split; [reflexivity|]); (split; [|reflexivity]);
      intros []; simpl; split; intros H; congruence.
Qed.

(** The objects of a text of three lines, the second of which does not
    match the pattern. *)
Example parseObjects_two_entries :
  parseObjects ("cat: 85%" ++ lineFeed ++ "noise line" ++ lineFeed ++ "dog: 42%")
  = [mkDetectedObject "cat" (85 # 100); mkDetectedObject "dog" (42 # 100)].
Proof. reflexivity. Qed.

Example parseColors_two_entries :
  parseColors "pink #FF00AA and navy #123abc"
  = [mkDominantColor "#FF00AA" "Unknown" 0; mkDominantColor "#123abc" "Unknown" 0].
Proof. reflexivity. Qed.

Lemma percent_bounds (digits : string) :
  (0 <= percentToConfidence digits)%Q /\
  ((percentToConfidence digits <= 1)%Q <-> (parseInt digits <= 100)%N).
Proof.
  unfold percentToConfidence, Qle. simpl. split; [lia|]. split; lia.
Qed.

Lemma parseObjects_entries (lines : list string) (init : list DetectedObject)
    (e : DetectedObject) :
  In e (fold_left
          (fun objects line =>
             match matchObjectLine line with
             | Some (name, digits) =>
                 objects ++ [mkDetectedObject (trim name) (percentToConfidence digits)]
             | None => objects
             end)
          lines init) ->
  In e init \/
  exists line name digits,
    In line lines /\ matchObjectLine line = Some (name, digits) /\
    e = mkDetectedObject (trim name) (percentToConfidence digits).
Proof.
  revert init. induction lines as [|line rest IH]; intros init H.
  - left. exact H.
  - simpl in H. apply IH in H. destruct H as [H|(l & n & d & Hl & Hm & He)].
    + destruct (matchObjectLine line) as [[name digits]|] eqn:Em.
      * apply in_app_or in H. destruct H as [H|[<-|[]]]; [left; exact H|].
        right. exists line, name, digits.
        split; [left; reflexivity|]. split; [exact Em | reflexivity].
      * left. exact H.
    + right. exists l, n, d. split; [right; exact Hl|]. split; assumption.
Qed.

Lemma parseEmotions_entries (text : string) (words : list string)
    (init : list DetectedEmotion) (e : DetectedEmotion) :
  In e (fold_left
          (fun result emotion =>
             match matchEmotion emotion text with
             | Some digits =>
                 result ++ [mkDetectedEmotion emotion (percentToConfidence digits)]
             | None => result
             end)
          words init) ->
  In e init \/
  exists digits,
    In (emo_emotion e) words /\ matchEmotion (emo_emotion e) text = Some digits /\
    emo_confidence e = percentToConfidence digits.
Proof.
  revert init. induction words as [|word rest IH]; intros init H.
  - left. exact H.
  - simpl in H. apply IH in H. destruct H as [H|(d & Hw & Hm & He)].
    + destruct (matchEmotion word text) as [digits|] eqn:Em.
      * apply in_app_or in H. destruct H as [H|[<-|[]]]; [left; exact H|].
        right. exists digits. simpl.
        split; [left; reflexivity|]. split; [exact Em | reflexivity].
      * left. exact H.
    + right. exists d. split; [right; exact Hw|]. split; assumption.
Qed.

(** C7, as the code has it.  The confidence of an entry is the integer
    of the matched percentage divided by 100, whatever that integer is:
    it is never negative, and it is at most 1 exactly when the integer
    is at most 100.  The object entry comes from a line of the text
    that matches the object pattern, the emotion entry from a match of
    the pattern of one of the seven words. *)
Theorem confidence_is_percentage (text : string) :
  (forall e, In e (parseObjects text) ->
     exists line name digits,
       In line (splitLines text) /\
       matchObjectLine line = Some (name, digits) /\
       e = mkDetectedObject (trim name) (percentToConfidence digits) /\
       (0 <= obj_confidence e)%Q /\
       ((obj_confidence e <= 1)%Q <-> (parseInt digits <= 100)%N)) /\
  (forall e, In e (parseEmotions text) ->
     exists digits,
       In (emo_emotion e) emotionWords /\
       matchEmotion (emo_emotion e) text = Some digits /\
       emo_confidence e = percentToConfidence digits /\
       (0 <= emo_confidence e)%Q /\
       ((emo_confidence e <= 1)%Q <-> (parseInt digits <= 100)%N)).
Proof.
  split; intros e H.
  - apply parseObjects_entries in H. destruct H as [[]|(l & n & d & Hl & Hm & He)].
    exists l, n, d. repeat (split; [assumption|]).
    subst e. simpl. apply percent_bounds.
  - apply parseEmotions_entries in H. destruct H as [[]|(d & Hw & Hm & He)].
    exists d. repeat (split; [assumption|]).
    rewrite He. apply percent_bounds.
Qed.

Lemma confidence_is_percentage_witness :
  exists digits,
    matchEmotion "sad" "Happy 12a 34% and SAD:5%" = Some digits /\
    (parseInt digits <= 100)%N.
Proof.
  destruct (proj2 (confidence_is_percentage "Happy 12a 34% and SAD:5%")
              (mkDetectedEmotion "sad" (5 # 100)))
    as (digits & _ & Hm & _ & _ & Hle).
  - vm_compute. right. left. reflexivity.
  - exists digits. split; [exact Hm|]. apply Hle.
    unfold Qle. simpl. lia.
Defined.

(** C7, as stated, fails: a percentage above 100 in the text gives a
    confidence above 1, in the objects and in the emotions. *)
Lemma confidence_above_one :
  ~ (forall e, In e (parseObjects "cat: 150%") ->
       (0 <= obj_confidence e)%Q /\ (obj_confidence e <= 1)%Q) /\
  ~ (forall e, In e (parseEmotions "happy 150%") ->
       (0 <= emo_confidence e)%Q /\ (emo_confidence e <= 1)%Q).
Proof.
  split; intros H.
  - destruct (H (mkDetectedObject "cat" (150 # 100))) as [_ Hle].
    + vm_compute. left. reflexivity.
    + vm_compute in Hle. apply Hle. reflexivity.
  - destruct (H (mkDetectedEmotion "happy" (150 # 100))) as [_ Hle].
    + vm_compute. left. reflexivity.
    + vm_compute in Hle. apply Hle. reflexivity.
Qed.

(** ** The client operations *)

Lemma prefix_app (needle rest : string) :
  String.prefix needle (needle ++ rest)%string = true.
Proof.
  induction needle as [|c needle IH]; simpl.
  - destruct rest; reflexivity.
  - destruct (ascii_dec c c) as [_|Hne]; [exact IH | contradiction].
Qed.

Lemma string_append_assoc (a b c : string) :
  ((a ++ b) ++ c = a ++ b ++ c)%string.
Proof.
  induction a as [|x a IH]; simpl; [reflexivity | rewrite IH; reflexivity].
Qed.

Lemma includes_prefix (needle haystack : string) :
  String.prefix needle haystack = true -> includes needle haystack = true.
Proof.
  intros H. destruct haystack; cbn [includes]; rewrite H; reflexivity.
Qed.

Lemma includes_app (needle before after : string) :
  includes needle (before ++ needle ++ after)%string = true.
Proof.
  induction before as [|c before IH].
  - change (includes needle (needle ++ after)%string = true).
    apply includes_prefix. apply prefix_app.
  - change (includes needle (String c (before ++ needle ++ after)%string) = true).
    cbn [includes]. rewrite IH. apply orb_true_r.
Qed.

(** The part of C8 that holds on the code: the style transfer is
    [modifyImage] on an instruction that names the style, with
    [preserveStyle] false, and the instruction carries the intensity and
    [%] when the intensity is given and is not zero. *)
Lemma style_transfer_nonzero_intensity (config : ClientConfig)
    (toISOString : Z -> string) (options : StyleTransferOptions) :
  applyStyleTransfer config toISOString options
  = modifyImage config toISOString (styleTransferModification options) /\
  preserveStyle (styleTransferModification options) = Some false /\
  includes (artisticStyleName (st_style options))
    (instructions (styleTransferModification options)) = true /\
  forall i, intensity options = Some i -> i <> 0 ->
    includes (string_of_Z i ++ "%")
      (instructions (styleTransferModification options)) = true.
Proof.
  split; [reflexivity|]. split; [reflexivity|]. split.
  - cbn [instructions styleTransferModification].
    unfold styleTransferInstructions. apply includes_app.
  - intros i Hi Hnz. cbn [instructions styleTransferModification].
    unfold styleTransferInstructions. rewrite Hi.
    destruct (i =? 0)%Z eqn:E; [apply Z.eqb_eq in E; contradiction|].
    replace ("Apply " ++ artisticStyleName (st_style options)
               ++ " style to this image. "
               ++ "Use " ++ string_of_Z i
               ++ "% intensity for the style transfer.")%string
      with (("Apply " ++ artisticStyleName (st_style options)
               ++ " style to this image. " ++ "Use ")
              ++ (string_of_Z i ++ "%")
              ++ " intensity for the style transfer.")%string.
    + apply includes_app.
    + repeat rewrite string_append_assoc. reflexivity.
Qed.

(** C8 at the input where the code departs from it: with the style
    cyberpunk and the intensity 0, which is supplied and within the
    range 0 to 100 that the tool catalogue documents, the instruction
    passed to [modifyImage] ([preserveStyle] false) names the style but
    holds no ["0%"]. *)
Theorem style_transfer_zero_intensity_loses_clause (imageBase64 : string) :
  let options := mkStyleTransferOptions imageBase64 Cyberpunk (Some 0) in
  styleTransferModification options
  = mkImageModificationOptions imageBase64
      "Apply cyberpunk style to this image. " (Some false) None /\
  includes "cyberpunk" (instructions (styleTransferModification options)) = true /\
  includes "0%" (instructions (styleTransferModification options)) = false.
Proof.
  cbv zeta. split; [reflexivity|]. split; reflexivity.
Qed.

(** C10. With the intensity given as 0 the instruction has no intensity
    clause: it is the instruction built when the intensity is absent,
    and so is the whole style transfer. *)
Theorem style_transfer_zero_is_absent (config : ClientConfig)
    (toISOString : Z -> string) (imageBase64 : string) (style : ArtisticStyle) :
  styleTransferInstructions (mkStyleTransferOptions imageBase64 style (Some 0))
  = ("Apply " ++ artisticStyleName style ++ " style to this image. ")%string /\
  styleTransferInstructions (mkStyleTransferOptions imageBase64 style (Some 0))
  = styleTransferInstructions (mkStyleTransferOptions imageBase64 style None) /\
  applyStyleTransfer config toISOString
    (mkStyleTransferOptions imageBase64 style (Some 0))
  = applyStyleTransfer config toISOString
      (mkStyleTransferOptions imageBase64 style None).
Proof.
  split; [|split]; reflexivity.
Qed.

(** [checkRateLimit] reads the clock once and stores what
    [checkRateLimitAt] leaves of the sequence. *)
Lemma checkRateLimit_run (config : ClientConfig) (w : World) :
  checkRateLimit config w
  = (fst (checkRateLimitAt (cfg_maxRequestsPerMinute config)
            (clock w (clockReads w)) (requestTimestamps w)),
     mkWorld
       (snd (checkRateLimitAt (cfg_maxRequestsPerMinute config)
               (clock w (clockReads w)) (requestTimestamps w)))
       (clock w) (S (clockReads w)) (remote w) (remoteLog w)).
Proof.
  unfold checkRateLimit, bind, Date_now, getRequestTimestamps. simpl.
  destruct (checkRateLimitAt (cfg_maxRequestsPerMinute config)
              (clock w (clockReads w)) (requestTimestamps w)) as [outcome ts].
  reflexivity.
Qed.

(** C9. When the admission check of [generateImage] succeeds and the
    remote call returns a response, the result is one image: the fixed
    mock payload with the MIME type image/png, whatever the options
    (their [numberOfImages] included) and whatever the response. *)
Theorem generateImage_returns_mock (config : ClientConfig)
    (toISOString : Z -> string) (options : ImageGenerationOptions)
    (w w1 : World) (response : GenerateContentResponse) :
  checkRateLimit config w = (Ok tt, w1) ->
  remote w1 (List.length (remoteLog w1)) (generationRequest options)
  = Ok response ->
  exists w' meta,
    generateImage config toISOString options w
    = (Ok [mkGeneratedImage mockBase64 "image/png" None None (Some meta)], w') /\
    meta = mkImageMetadata (Some (prompt options)) (Some (cfg_model config))
             (Some (toISOString (clock w1 (clockReads w1)))) /\
    remoteLog w' = remoteLog w1 ++ [generationRequest options].
Proof.
  intros Hadmit Hremote.
  unfold generateImage, bind. rewrite Hadmit.
  unfold tryCatch, bind, model_generateContent.
  fold (generationRequest options). rewrite Hremote.
  unfold extractImagesFromResponse, tryCatch, bind, Date_now, ret. simpl.
  eexists. eexists. split; [reflexivity|]. split; reflexivity.
Qed.

Lemma generateImage_returns_mock_witness :
  exists w',
    generateImage plainConfig (fun _ => "1970-01-01T00:00:01.000Z")
      (mkImageGenerationOptions "a cat"
         (mkBaseOptions None None None None None (Some 4) None))
      freshWorld
    = (Ok [mkGeneratedImage mockBase64 "image/png" None None
             (Some (mkImageMetadata (Some "a cat")
                      (Some "gemini-2.5-flash-image-preview")
                      (Some "1970-01-01T00:00:01.000Z")))],
       w').
Proof.
  destruct (generateImage_returns_mock plainConfig
              (fun _ => "1970-01-01T00:00:01.000Z")
              (mkImageGenerationOptions "a cat"
                 (mkBaseOptions None None None None None (Some 4) None))
              freshWorld
              (mkWorld [0] (fun k => 1000 * Z.of_nat k) 1 quietRemote [])
              (mkGenerateContentResponse (Ok "no image here")))
    as (w' & meta & Hrun & Hmeta & _).
  - reflexivity.
  - reflexivity.
  - exists w'. rewrite Hrun, Hmeta. reflexivity.
Defined.

(** A call of [generateImage] sends at most one request to the remote
    model, and exactly one when it returns. *)
Lemma generateImage_log (config : ClientConfig) (toISOString : Z -> string)
    (options : ImageGenerationOptions) (w w' : World)
    (r : Result (list GeneratedImage)) :
  generateImage config toISOString options w = (r, w') ->
  (throws r = false -> remoteLog w' = remoteLog w ++ [generationRequest options]) /\
  (remoteLog w' = remoteLog w \/
   remoteLog w' = remoteLog w ++ [generationRequest options]).
Proof.
  unfold generateImage, bind. rewrite checkRateLimit_run.
  destruct (fst (checkRateLimitAt (cfg_maxRequestsPerMinute config)
                   (clock w (clockReads w)) (requestTimestamps w))) as [[]|e].
  - unfold tryCatch, bind, model_generateContent, extractImagesFromResponse,
      tryCatch, bind, Date_now, ret, throw.
    fold (generationRequest options).
    cbn [remote remoteLog clock clockReads requestTimestamps].
    destruct (remote w (List.length (remoteLog w)) (generationRequest options))
      as [response|e].
    + intros H. injection H as <- <-. cbn [throws remoteLog].
      split; [reflexivity | right; reflexivity].
    + intros H. injection H as <- <-. cbn [throws remoteLog].
      split; [discriminate | right; reflexivity].
  - intros H. injection H as <- <-. cbn [throws remoteLog].
    split; [discriminate | left; reflexivity].
Qed.

Lemma batchCalls_log (config : ClientConfig) (toISOString : Z -> string)
    (base : BaseOptions) (w w' : World) (batch : list string)
    (produced : list (list GeneratedImage)) :
  batchCalls config toISOString base w batch produced w' ->
  remoteLog w'
  = remoteLog w
      ++ map (fun p => generationRequest (mkImageGenerationOptions p base)) batch.
Proof.
  induction 1 as [w|w p later images produced w1 w2 Hcall Hrest IH].
  - simpl. rewrite app_nil_r. reflexivity.
  - rewrite IH.
    destruct (generateImage_log _ _ _ _ _ _ Hcall) as [Hlog _].
    rewrite (Hlog eq_refl). rewrite <- app_assoc. reflexivity.
Qed.

Lemma generateBatchLoop_runs (config : ClientConfig) (toISOString : Z -> string)
    (base : BaseOptions) (remaining : list string) :
  forall (results : list GeneratedImage) (w : World),
    (exists produced w',
       batchCalls config toISOString base w remaining produced w' /\
       generateBatchLoop config toISOString base remaining results w
       = (Ok (results ++ List.concat produced), w'))
    \/
    (exists done failing later produced w1 error w2,
       remaining = done ++ failing :: later /\
       batchCalls config toISOString base w done produced w1 /\
       generateImage config toISOString (mkImageGenerationOptions failing base) w1
       = (Throw error, w2) /\
       generateBatchLoop config toISOString base remaining results w
       = (Throw error, w2)).
Proof.
  induction remaining as [|p later IH]; intros results w.
  - left. exists [], w. split; [constructor|].
    simpl. unfold ret. rewrite app_nil_r. reflexivity.
  - cbn [generateBatchLoop]. unfold bind.
    destruct (generateImage config toISOString (mkImageGenerationOptions p base) w)
      as [[images|error] w1] eqn:Hcall.
    + destruct (IH (results ++ images) w1)
        as [(produced & w' & Hcalls & Hrun)
           |(done & failing & later' & produced & w1' & error & w2 & Heq & Hcalls
               & Hfail & Hrun)].
      * left. exists (images :: produced), w'. split.
        -- econstructor; eassumption.
        -- rewrite Hrun. simpl. rewrite app_assoc. reflexivity.
      * right. exists (p :: done), failing, later', (images :: produced), w1',
          error, w2.
        split; [rewrite Heq; reflexivity|].
        split; [econstructor; eassumption|]. split; assumption.
    + right. exists [], p, later, [], w, error, w1.
      split; [reflexivity|]. split; [constructor|]. split; [exact Hcall | reflexivity].
Qed.

(** C4. [generateBatch] is a chain of calls of [generateImage], one per
    prompt and in the order of the prompts, each with the shared
    options.  Either every call returns: then the result is the
    concatenation of their images in that order, and the remote model
    has received one request per prompt, in order.  Or the call for
    some prompt fails after the calls before it returned: then
    [generateBatch] fails with that very failure, returns no image, and
    stops in the world that call left, so no later prompt is attempted
    (the remote model has received nothing for them). *)
Theorem generateBatch_sequential (config : ClientConfig)
    (toISOString : Z -> string) (options : BatchGenerationOptions) (w : World) :
  let base := orDefault (baseOptions options) noBaseOptions in
  let request p := generationRequest (mkImageGenerationOptions p base) in
  (exists produced w',
     batchCalls config toISOString base w (prompts options) produced w' /\
     generateBatch config toISOString options w = (Ok (List.concat produced), w') /\
     remoteLog w' = remoteLog w ++ map request (prompts options))
  \/
  (exists done failing later produced w1 error w2,
     prompts options = done ++ failing :: later /\
     batchCalls config toISOString base w done produced w1 /\
     generateImage config toISOString (mkImageGenerationOptions failing base) w1
     = (Throw error, w2) /\
     generateBatch config toISOString options w = (Throw error, w2) /\
     (remoteLog w2 = remoteLog w ++ map request done \/
      remoteLog w2 = remoteLog w ++ map request (done ++ [failing]))).
Proof.
  cbv zeta. unfold generateBatch.
  destruct (generateBatchLoop_runs config toISOString
              (orDefault (baseOptions options) noBaseOptions)
              (prompts options) [] w)
    as [(produced & w' & Hcalls & Hrun)
       |(done & failing & later & produced & w1 & error & w2 & Heq & Hcalls
           & Hfail & Hrun)].
  - left. exists produced, w'. split; [exact Hcalls|]. split; [exact Hrun|].
    apply (batchCalls_log _ _ _ _ _ _ _ Hcalls).
  - right. exists done, failing, later, produced, w1, error, w2.
    repeat (split; [assumption|]).
    pose proof (batchCalls_log _ _ _ _ _ _ _ Hcalls) as Hlog.
    destruct (generateImage_log _ _ _ _ _ _ Hfail) as [_ [Hsame|Hsent]].
    + left. rewrite Hsame. exact Hlog.
    + right. rewrite Hsent, Hlog, map_app, app_assoc. reflexivity.
Qed.

(** The batch of the three prompts a, b, c on a client whose limit is
    one call a minute: the second call is rejected by the rate limiter,
    the batch fails with that rejection, and the remote model has
    received the request of the first prompt only. *)
Example batch_second_call_rate_limited :
  let run :=
    generateBatch (mkClientConfig "key" "model" SafetyMedium 1)
      (fun _ => "1970-01-01T00:00:01.000Z")
      (mkBatchGenerationOptions ["a"; "b"; "c"] None) freshWorld in
  fst run = Throw (JsError "Rate limit exceeded. Please wait 58 seconds.") /\
  remoteLog (snd run) = [mkGenerateContentRequest "a" None] /\
  requestTimestamps (snd run) = [0].
Proof. vm_compute. repeat split. Qed.

(** ** The gateway *)

Lemma only_errors_ret {A : Type} (value : A) : throwsOnlyErrors (ret value).
Proof. intros w error w' H. discriminate. Qed.

Lemma only_errors_throw {A : Type} (message : string) :
  throwsOnlyErrors (@throw A (JsError message)).
Proof.
  intros w error w' H. injection H as <- _. exists message. reflexivity.
Qed.

Lemma only_errors_bind {A B : Type} (m : M A) (k : A -> M B) :
  throwsOnlyErrors m -> (forall value, throwsOnlyErrors (k value)) ->
  throwsOnlyErrors (bind m k).
Proof.
  intros Hm Hk w error w'. unfold bind.
  destruct (m w) as [[value|e] w1] eqn:E.
  - apply Hk.
  - intros H. injection H as <- _. apply (Hm w e w1 E).
Qed.

Lemma only_errors_tryCatch {A : Type} (body : M A) (handler : JsException -> M A) :
  (forall error, throwsOnlyErrors (handler error)) ->
  throwsOnlyErrors (tryCatch body handler).
Proof.
  intros Hh w error w'. unfold tryCatch.
  destruct (body w) as [[value|e] w1].
  - discriminate.
  - apply Hh.
Qed.

Lemma only_errors_checkRateLimit (config : ClientConfig) :
  throwsOnlyErrors (checkRateLimit config).
Proof.
  intros w error w'. rewrite checkRateLimit_run. unfold checkRateLimitAt.
  cbv zeta.
  destruct (Z.of_nat _ >=? cfg_maxRequestsPerMinute config); simpl; intros H.
  - injection H as <- _. eexists. reflexivity.
  - discriminate.
Qed.

Create HintDb only_errors.
#[local] Hint Resolve only_errors_ret only_errors_throw only_errors_bind
  only_errors_tryCatch only_errors_checkRateLimit : only_errors.

Lemma only_errors_generateImage (config : ClientConfig)
    (toISOString : Z -> string) (options : ImageGenerationOptions) :
  throwsOnlyErrors (generateImage config toISOString options).
Proof. unfold generateImage. auto with only_errors. Qed.

Lemma only_errors_modifyImage (config : ClientConfig)
    (toISOString : Z -> string) (options : ImageModificationOptions) :
  throwsOnlyErrors (modifyImage config toISOString options).
Proof. unfold modifyImage. auto with only_errors. Qed.

Lemma only_errors_analyzeImage (config : ClientConfig)
    (options : ImageAnalysisOptions) :
  throwsOnlyErrors (analyzeImage config options).
Proof. unfold analyzeImage. auto with only_errors. Qed.

Lemma only_errors_generateBatch (config : ClientConfig)
    (toISOString : Z -> string) (options : BatchGenerationOptions) :
  throwsOnlyErrors (generateBatch config toISOString options).
Proof.
  unfold generateBatch. generalize (@nil GeneratedImage).
  induction (prompts options) as [|p later IH]; intros results; simpl.
  - auto with only_errors.
  - apply only_errors_bind; [apply only_errors_generateImage|].
    intros images. apply IH.
Qed.

#[local] Hint Resolve only_errors_generateImage only_errors_modifyImage
  only_errors_analyzeImage only_errors_generateBatch : only_errors.

Section GatewayProperties.

Variable config : ClientConfig.
Variable toISOString : Z -> string.
Variable toFixed1 : Q -> string.
Variable JSON_stringify : Comprehensive -> string.
Variable Arguments : Type.
Variable asImageGenerationOptions : Arguments -> ImageGenerationOptions.
Variable asImageModificationOptions : Arguments -> ImageModificationOptions.
Variable asImageAnalysisOptions : Arguments -> ImageAnalysisOptions.
Variable asBatchGenerationOptions : Arguments -> BatchGenerationOptions.
Variable asStyleTransferOptions : Arguments -> StyleTransferOptions.

Local Abbreviation dispatch :=
  (dispatchTool config toISOString toFixed1 JSON_stringify Arguments
    asImageGenerationOptions asImageModificationOptions
    asImageAnalysisOptions asBatchGenerationOptions asStyleTransferOptions).

Local Abbreviation handler :=
  (callToolHandler config toISOString toFixed1 JSON_stringify Arguments
    asImageGenerationOptions asImageModificationOptions
    asImageAnalysisOptions asBatchGenerationOptions asStyleTransferOptions).

Lemma only_errors_dispatchTool (name : string) (args : Arguments) :
  throwsOnlyErrors (dispatch name args).
Proof.
  unfold dispatch, dispatchTool.
  repeat match goal with
         | |- throwsOnlyErrors (if ?c then _ else _) => destruct c
         end.
  - unfold handleGenerateImage. auto with only_errors.
  - unfold handleModifyImage. apply only_errors_bind; [auto with only_errors|].
    intros [image|]; auto with only_errors.
  - unfold handleAnalyzeImage. auto with only_errors.
  - unfold handleBatchGenerate. auto with only_errors.
  - unfold handleStyleTransfer, applyStyleTransfer.
    apply only_errors_bind; [auto with only_errors|].
    intros [image|]; auto with only_errors.
  - auto with only_errors.
Qed.

Lemma dispatch_unknown_tool (name : string) (args : Arguments) (w : World) :
  ~ In name toolCatalogue ->
  dispatch name args w = (Throw (JsError ("Unknown tool: " ++ name)%string), w).
Proof.
  intros Hnot. unfold dispatch, dispatchTool.
  repeat match goal with
         | |- context [(name =? ?tool)%string] =>
             destruct (String.eqb_spec name tool) as [->|_];
             [exfalso; apply Hnot; simpl; tauto|]
         end.
  reflexivity.
Qed.

(** C5. The handler of tool calls returns a response envelope for
    every invocation and never throws.  When the dispatch to the
    lower layers fails, the failure is an [Error] and the envelope is
    the error-flagged one that carries its message; a name outside
    the catalogue of five tools is such a failure, with the message
    ["Unknown tool: "] and the name.  Otherwise the envelope is the
    one the tool produced. *)
Theorem gateway_catches_all (request : CallToolRequest Arguments) (w : World) :
  exists envelope w',
    handler request w = (Ok envelope, w') /\
    (forall error w1,
       dispatch (params_name Arguments request)
         (params_arguments Arguments request) w = (Throw error, w1) ->
       exists message,
         error = JsError message /\ w' = w1 /\
         envelope
         = mkCallToolResult [TextContent ("Error: " ++ message)%string]
             (Some true)) /\
    (forall produced w1,
       dispatch (params_name Arguments request)
         (params_arguments Arguments request) w = (Ok produced, w1) ->
       w' = w1 /\ envelope = produced) /\
    (~ In (params_name Arguments request) toolCatalogue ->
     w' = w /\
     envelope
     = mkCallToolResult
         [TextContent
            ("Error: Unknown tool: " ++ params_name Arguments request)%string]
         (Some true)).
Proof.
  unfold handler, callToolHandler, tryCatch. cbv zeta.
  fold (dispatch (params_name Arguments request)
          (params_arguments Arguments request)).
  pose proof (only_errors_dispatchTool (params_name Arguments request)
                (params_arguments Arguments request) w) as Honly.
  pose proof (dispatch_unknown_tool (params_name Arguments request)
                (params_arguments Arguments request) w) as Hunknown.
  destruct (dispatch (params_name Arguments request)
              (params_arguments Arguments request) w)
    as [[produced|error] w1] eqn:E.
  - exists produced, w1. split; [reflexivity|]. split; [discriminate|]. split.
    + intros p w2 H. injection H as <- <-. split; reflexivity.
    + intros Hnot. specialize (Hunknown Hnot). discriminate.
  - destruct (Honly error w1 eq_refl) as [message ->].
    exists (errorEnvelope (JsError message)), w1.
    split; [reflexivity|]. split; [|split].
    + intros e w2 H. injection H as <- <-. exists message.
      repeat split; reflexivity.
    + discriminate.
    + intros Hnot. specialize (Hunknown Hnot). injection Hunknown as -> ->.
      split; reflexivity.
Qed.

End GatewayProperties.

Lemma gateway_catches_all_witness :
  callToolHandler plainConfig (fun _ => "1970-01-01T00:00:00.000Z")
    (fun _ => "0.0") (fun _ => "{}") unit
    (fun _ => mkImageGenerationOptions "a cat" noBaseOptions)
    (fun _ => mkImageModificationOptions "AAAA" "brighter" None None)
    (fun _ => mkImageAnalysisOptions "AAAA" None None)
    (fun _ => mkBatchGenerationOptions [] None)
    (fun _ => mkStyleTransferOptions "AAAA" Anime None)
    (mkCallToolRequest unit "deleteImage" tt) freshWorld
  = (Ok (mkCallToolResult [TextContent "Error: Unknown tool: deleteImage"]
           (Some true)),
     freshWorld).
Proof.
  destruct (gateway_catches_all plainConfig (fun _ => "1970-01-01T00:00:00.000Z")
              (fun _ => "0.0") (fun _ => "{}") unit
              (fun _ => mkImageGenerationOptions "a cat" noBaseOptions)
              (fun _ => mkImageModificationOptions "AAAA" "brighter" None None)
              (fun _ => mkImageAnalysisOptions "AAAA" None None)
              (fun _ => mkBatchGenerationOptions [] None)
              (fun _ => mkStyleTransferOptions "AAAA" Anime None)
              (mkCallToolRequest unit "deleteImage" tt) freshWorld)
    as (envelope & w' & Hrun & _ & _ & Hunknown).
  destruct Hunknown as [-> ->].
  - simpl. intros H. repeat destruct H as [H|H]; try discriminate H. exact H.
  - exact Hrun.
Defined.

(** * Further properties of the code *)

(** ** The rate limiter *)

Lemma check_cases (limit now : Z) (timestamps : list Z) :
  (Z.of_nat (List.length (pruneTimestamps now timestamps)) < limit /\
   checkRateLimitAt limit now timestamps
   = (Ok tt, pruneTimestamps now timestamps ++ [now])) \/
  (limit <= Z.of_nat (List.length (pruneTimestamps now timestamps)) /\
   checkRateLimitAt limit now timestamps
   = (Throw (JsError (rateLimitMessage
                        (rateLimitWaitTime now (pruneTimestamps now timestamps)))),
      pruneTimestamps now timestamps)).
Proof.
  destruct (Z_lt_le_dec
              (Z.of_nat (List.length (pruneTimestamps now timestamps))) limit)
    as [Hlt|Hle].
  - left. split; [exact Hlt | apply check_admits; exact Hlt].
  - right. split; [exact Hle | apply check_rejects; exact Hle].
Qed.

Lemma prune_length_le (now : Z) (timestamps : list Z) :
  (List.length (pruneTimestamps now timestamps) <= List.length timestamps)%nat.
Proof. unfold pruneTimestamps. apply filter_length_le. Qed.

Lemma reachable_length_bound (limit : Z) (timestamps : list Z) :
  reachableTimestamps limit timestamps ->
  Z.of_nat (List.length timestamps) <= Z.max 0 limit.
Proof.
  induction 1 as [|now timestamps Hreach IH].
  - simpl. lia.
  - destruct (check_cases limit now timestamps) as [[Hlt ->]|[Hle ->]];
      cbn [snd].
    + rewrite length_app. simpl. lia.
    + pose proof (prune_length_le now timestamps). lia.
Qed.





Lemma prune_now (now later : Z) :
  later - now < windowMs -> pruneTimestamps later [now] = [now].
Proof.
  intros H. apply prune_keeps_window. intros t [<-|[]]. exact H.
Qed.




Lemma filter_drops_one {A : Type} (f : A -> bool) (x : A) (l : list A) :
  In x l -> f x = false -> (List.length (filter f l) < List.length l)%nat.
Proof.
  induction l as [|y l IH]; intros Hin Hf; [destruct Hin|].
  simpl. destruct Hin as [->|Hin].
  - rewrite Hf. pose proof (filter_length_le f l). lia.
  - specialize (IH Hin Hf). destruct (f y); simpl; lia.
Qed.

(** X3. The wait a rejection computes is exact.  In a client with a
    positive limit, after a check at [now] is rejected with the wait
    [60000 - (now - oldest)], every check made before that wait is over
    is rejected too, and the check made when it is over is admitted. *)
Theorem retry_after_is_exact (limit now : Z) (timestamps remaining : list Z)
    (error : JsException) :
  0 < limit ->
  reachableTimestamps limit timestamps ->
  checkRateLimitAt limit now timestamps = (Throw error, remaining) ->
  exists wait,
    rateLimitWaitTime now remaining = Num wait /\
    0 < wait /\
    (forall t, now <= t < now + wait ->
       throws (fst (checkRateLimitAt limit t remaining)) = true) /\
    fst (checkRateLimitAt limit (now + wait) remaining) = Ok tt.
Proof.
  intros Hpos Hreach Hcheck.
  destruct (check_cases limit now timestamps) as [[_ Hc]|[Hle Hc]];
    rewrite Hc in Hcheck; [discriminate|].
  injection Hcheck as _ <-.
  pose proof (reachable_length_bound limit timestamps Hreach) as Hbound.
  pose proof (prune_length_le now timestamps) as Hshort.
  set (remaining := pruneTimestamps now timestamps) in *.
  assert (Hlen : Z.of_nat (List.length remaining) = limit) by lia.
  assert (Hne : remaining <> []).
  { intros E. rewrite E in Hlen. simpl in Hlen. lia. }
  destruct (Math_min_least remaining Hne) as (oldest & Hmin & Hin & Hleast).
  assert (Hyoung : now - oldest < windowMs).
  { unfold remaining in Hin. apply prune_spec in Hin. apply Hin. }
  unfold windowMs in Hyoung.
  exists (60000 - (now - oldest)).
  split; [unfold rateLimitWaitTime; rewrite Hmin; reflexivity|].
  split; [lia|]. split.
  - intros t Ht.
    assert (Hkeep : pruneTimestamps t remaining = remaining).
    { apply prune_keeps_window. intros x Hx. specialize (Hleast x Hx).
      unfold windowMs. lia. }
    rewrite check_rejects; [reflexivity | rewrite Hkeep; lia].
  - rewrite check_admits; [reflexivity|].
    assert (Hdrop : (List.length (pruneTimestamps (now + (60000 - (now - oldest)))
                                    remaining)
                     < List.length remaining)%nat).
    { unfold pruneTimestamps. apply (filter_drops_one _ oldest); [exact Hin|].
      unfold windowMs. rewrite Z.gtb_ltb. apply Z.ltb_ge. lia. }
    lia.
Qed.

Lemma retry_after_is_exact_witness :
  fst (checkRateLimitAt 2 60000 [0; 1000]) = Ok tt.
Proof.
  destruct (retry_after_is_exact 2 2000 [0; 1000] [0; 1000]
              (JsError "Rate limit exceeded. Please wait 58 seconds."))
    as (wait & Hwait & _ & _ & Hadmit).
  - lia.
  - apply (reach_check 2 1000 [0]). apply (reach_check 2 0 []). apply reach_initial.
  - reflexivity.
  - vm_compute in Hwait. injection Hwait as <-. exact Hadmit.
Defined.

(** X4. The message of a rejection never asks to wait zero seconds:
    with a positive limit the number of seconds it names is at least 1,
    and at most 60 when no time stamp of the sequence lies in the
    future. *)
Theorem rejection_names_seconds (limit now : Z) (timestamps remaining : list Z)
    (error : JsException) :
  0 < limit ->
  checkRateLimitAt limit now timestamps = (Throw error, remaining) ->
  exists seconds,
    error = JsError ("Rate limit exceeded. Please wait "
                       ++ string_of_Z seconds ++ " seconds.")%string /\
    1 <= seconds /\
    ((forall t, In t timestamps -> t <= now) -> seconds <= 60).
Proof.
  intros Hpos Hcheck.
  destruct (check_cases limit now timestamps) as [[_ Hc]|[Hle Hc]];
    rewrite Hc in Hcheck; [discriminate|].
  injection Hcheck as <- <-.
  set (remaining := pruneTimestamps now timestamps) in *.
  assert (Hne : remaining <> []).
  { intros E. rewrite E in Hle. simpl in Hle. lia. }
  destruct (Math_min_least remaining Hne) as (oldest & Hmin & Hin & Hleast).
  unfold remaining in Hin. apply prune_spec in Hin. destruct Hin as [Hin Hyoung].
  unfold windowMs in Hyoung.
  exists (- ((- (60000 - (now - oldest))) / 1000)).
  split; [|split].
  - unfold rateLimitMessage, rateLimitWaitTime. rewrite Hmin.
    cbn [jsSub jsAdd jsNeg jsCeilDiv jsNumberToString].
    repeat f_equal; lia.
  - assert (- (60000 - (now - oldest)) / 1000 < 0)
      by (apply Z.div_lt_upper_bound; lia).
    lia.
  - intros Hpast. specialize (Hpast oldest Hin).
    assert (- 60 <= - (60000 - (now - oldest)) / 1000)
      by (apply Z.div_le_lower_bound; lia).
    lia.
Qed.

Lemma rejection_names_seconds_witness :
  exists seconds,
    JsError "Rate limit exceeded. Please wait 1 seconds."
    = JsError ("Rate limit exceeded. Please wait "
                 ++ string_of_Z seconds ++ " seconds.")%string /\
    1 <= seconds <= 60.
Proof.
  destruct (rejection_names_seconds 1 59001 [0] [0]
              (JsError "Rate limit exceeded. Please wait 1 seconds."))
    as (seconds & Herr & Hlow & Hhigh).
  - lia.
  - reflexivity.
  - exists seconds. split; [exact Herr|].
    split; [exact Hlow | apply Hhigh; intros t [<-|[]]; lia].
Defined.

(** ** The client operations, step by step *)

Lemma checkRateLimit_world (config : ClientConfig) (w w1 : World)
    (r : Result unit) :
  checkRateLimit config w = (r, w1) ->
  clock w1 = clock w /\ clockReads w1 = S (clockReads w) /\
  remote w1 = remote w /\ remoteLog w1 = remoteLog w /\
  checkRateLimitAt (cfg_maxRequestsPerMinute config) (clock w (clockReads w))
    (requestTimestamps w) = (r, requestTimestamps w1).
Proof.
  rewrite checkRateLimit_run. intros H. injection H as <- <-. cbn.
  repeat split. apply surjective_pairing.
Qed.

(** X5. A call the rate limiter rejects goes no further: each of the
    four operations that start with the admission check fails with the
    rejection itself, unwrapped, and nothing is sent to the remote
    model. *)
Theorem rejected_call_sends_nothing (config : ClientConfig)
    (toISOString : Z -> string) (w w1 : World) (error : JsException) :
  checkRateLimit config w = (Throw error, w1) ->
  remoteLog w1 = remoteLog w /\
  (exists message, error = JsError message /\
     String.prefix "Rate limit exceeded." message = true) /\
  (forall options,
     generateImage config toISOString options w = (Throw error, w1)) /\
  (forall options,
     modifyImage config toISOString options w = (Throw error, w1)) /\
  (forall options, analyzeImage config options w = (Throw error, w1)) /\
  (forall options,
     applyStyleTransfer config toISOString options w = (Throw error, w1)).
Proof.
  intros Hcheck.
  destruct (checkRateLimit_world config w w1 _ Hcheck) as (_ & _ & _ & Hlog & Hat).
  split; [exact Hlog|]. split.
  - destruct (check_cases (cfg_maxRequestsPerMinute config)
                (clock w (clockReads w)) (requestTimestamps w))
      as [[_ Hc]|[_ Hc]]; rewrite Hc in Hat; [discriminate|].
    injection Hat as <- _. eexists. split; [reflexivity|]. reflexivity.
  - repeat split; intros options;
      unfold applyStyleTransfer, generateImage, modifyImage, analyzeImage, bind;
      rewrite Hcheck; reflexivity.
Qed.

Lemma rejected_call_sends_nothing_witness :
  remoteLog (snd (generateImage (mkClientConfig "key" "model" SafetyMedium 0)
                    (fun _ => "t")
                    (mkImageGenerationOptions "a cat" noBaseOptions) freshWorld))
  = [].
Proof.
  destruct (rejected_call_sends_nothing
              (mkClientConfig "key" "model" SafetyMedium 0) (fun _ => "t")
              freshWorld
              (mkWorld [] (fun k => 1000 * Z.of_nat k) 1 quietRemote [])
              (JsError "Rate limit exceeded. Please wait Infinity seconds."))
    as (Hlog & _ & Hgen & _).
  - reflexivity.
  - rewrite Hgen. exact Hlog.
Defined.

(** X6. A failure of the remote call is re-thrown as an [Error] whose
    message is the name of the operation and the message of the cause
    (["Unknown error"] when the cause is no [Error]); the call has been
    sent, and its admission stays recorded: a failed call uses up its
    place in the window. *)
Theorem remote_failure_is_wrapped (config : ClientConfig)
    (toISOString : Z -> string) (w w1 : World) (cause : JsException) :
  checkRateLimit config w = (Ok tt, w1) ->
  (forall options,
     remoteAnswer w1 (generationRequest options) = Throw cause ->
     exists w',
       generateImage config toISOString options w
       = (Throw (JsError ("Image generation failed: "
                            ++ messageOr cause "Unknown error")%string), w') /\
       remoteLog w' = remoteLog w ++ [generationRequest options] /\
       requestTimestamps w'
       = pruneTimestamps (clock w (clockReads w)) (requestTimestamps w)
           ++ [clock w (clockReads w)]) /\
  (forall options,
     remoteAnswer w1 (modificationRequest options) = Throw cause ->
     exists w',
       modifyImage config toISOString options w
       = (Throw (JsError ("Image modification failed: "
                            ++ messageOr cause "Unknown error")%string), w') /\
       remoteLog w' = remoteLog w ++ [modificationRequest options] /\
       requestTimestamps w'
       = pruneTimestamps (clock w (clockReads w)) (requestTimestamps w)
           ++ [clock w (clockReads w)]) /\
  (forall options,
     remoteAnswer w1 (analysisRequest options) = Throw cause ->
     exists w',
       analyzeImage config options w
       = (Throw (JsError ("Image analysis failed: "
                            ++ messageOr cause "Unknown error")%string), w') /\
       remoteLog w' = remoteLog w ++ [analysisRequest options] /\
       requestTimestamps w'
       = pruneTimestamps (clock w (clockReads w)) (requestTimestamps w)
           ++ [clock w (clockReads w)]).
Proof.
  intros Hcheck.
  destruct (checkRateLimit_world config w w1 _ Hcheck)
    as (_ & _ & _ & Hlog & Hat).
  assert (Hts : requestTimestamps w1
                = pruneTimestamps (clock w (clockReads w)) (requestTimestamps w)
                    ++ [clock w (clockReads w)]).
  { destruct (check_cases (cfg_maxRequestsPerMinute config)
                (clock w (clockReads w)) (requestTimestamps w))
      as [[_ Hc]|[_ Hc]]; rewrite Hc in Hat; [|discriminate].
    injection Hat as <-. reflexivity. }
  split; [|split]; intros options Hremote; unfold remoteAnswer in Hremote.
  - unfold generateImage, bind. rewrite Hcheck.
    unfold tryCatch, bind, model_generateContent.
    fold (generationRequest options). rewrite Hremote.
    unfold throw. eexists. split; [reflexivity|].
    cbn [remoteLog requestTimestamps]. rewrite Hlog.
    split; [reflexivity | exact Hts].
  - unfold modifyImage, bind. rewrite Hcheck.
    unfold tryCatch, bind, model_generateContent.
    fold (modificationRequest options). rewrite Hremote.
    unfold throw. eexists. split; [reflexivity|].
    cbn [remoteLog requestTimestamps]. rewrite Hlog.
    split; [reflexivity | exact Hts].
  - unfold analyzeImage, bind. rewrite Hcheck.
    unfold tryCatch, bind, model_generateContent.
    fold (analysisRequest options). rewrite Hremote.
    unfold throw. eexists. split; [reflexivity|].
    cbn [remoteLog requestTimestamps]. rewrite Hlog.
    split; [reflexivity | exact Hts].
Qed.

Lemma remote_failure_is_wrapped_witness :
  fst (analyzeImage plainConfig (mkImageAnalysisOptions "AAAA" (Some Colors) None)
         (mkWorld [] (fun k => 1000 * Z.of_nat k) 0 failingRemote []))
  = Throw (JsError "Image analysis failed: quota exhausted").
Proof.
  destruct (remote_failure_is_wrapped plainConfig (fun _ => "t")
              (mkWorld [] (fun k => 1000 * Z.of_nat k) 0 failingRemote [])
              (mkWorld [0] (fun k => 1000 * Z.of_nat k) 1 failingRemote [])
              (JsError "quota exhausted")) as (_ & _ & Hana).
  - reflexivity.
  - destruct (Hana (mkImageAnalysisOptions "AAAA" (Some Colors) None))
      as (w' & Hrun & _).
    + reflexivity.
    + rewrite Hrun. reflexivity.
Defined.

Lemma generateImage_returns (config : ClientConfig) (toISOString : Z -> string)
    (options : ImageGenerationOptions) (w w' : World)
    (images : list GeneratedImage) :
  generateImage config toISOString options w = (Ok images, w') ->
  let now := clock w (clockReads w) in
  images = [mockImageFor config (prompt options)
              (toISOString (clock w (S (clockReads w))))] /\
  clock w' = clock w /\ clockReads w' = S (S (clockReads w)) /\
  remote w' = remote w /\
  remoteLog w' = remoteLog w ++ [generationRequest options] /\
  requestTimestamps w' = pruneTimestamps now (requestTimestamps w) ++ [now] /\
  Z.of_nat (List.length (pruneTimestamps now (requestTimestamps w)))
  < cfg_maxRequestsPerMinute config.
Proof.
  cbv zeta. unfold generateImage, bind. rewrite checkRateLimit_run.
  destruct (check_cases (cfg_maxRequestsPerMinute config)
              (clock w (clockReads w)) (requestTimestamps w))
    as [[Hlt Hc]|[_ Hc]]; rewrite Hc; cbn [fst snd]; [|discriminate].
  unfold tryCatch, bind, model_generateContent, extractImagesFromResponse,
    tryCatch, bind, Date_now, ret, throw.
  fold (generationRequest options).
  cbn [remote remoteLog clock clockReads requestTimestamps].
  destruct (remote w (List.length (remoteLog w)) (generationRequest options));
    [|discriminate].
  intros H. injection H as <- <-. cbn. repeat split. exact Hlt.
Qed.

Lemma modifyImage_returns (config : ClientConfig) (toISOString : Z -> string)
    (options : ImageModificationOptions) (w w' : World)
    (image : option GeneratedImage) :
  modifyImage config toISOString options w = (Ok image, w') ->
  image = Some (mockImageFor config (instructions options)
                  (toISOString (clock w (S (clockReads w))))).
Proof.
  unfold modifyImage, bind. rewrite checkRateLimit_run.
  destruct (check_cases (cfg_maxRequestsPerMinute config)
              (clock w (clockReads w)) (requestTimestamps w))
    as [[Hlt Hc]|[_ Hc]]; rewrite Hc; cbn [fst snd]; [|discriminate].
  unfold tryCatch, bind, model_generateContent, extractImagesFromResponse,
    tryCatch, bind, Date_now, ret, throw.
  cbn [remote remoteLog clock clockReads requestTimestamps].
  destruct (remote w (List.length (remoteLog w)) _); [|discriminate].
  intros H. injection H as <- _. reflexivity.
Qed.

(** X7. Whenever [generateImage] returns, it returns exactly one image,
    and whenever [modifyImage] or [applyStyleTransfer] returns, it
    returns an image and never [undefined]: in each case the fixed mock
    payload of type image/png, tagged with the prompt (or the
    instructions), the model of the configuration and the time of the
    second clock reading of the call.  The image passed in has no part
    in the result. *)
Theorem returned_images_are_the_mock (config : ClientConfig)
    (toISOString : Z -> string) (w w' : World) :
  let timestamp := toISOString (clock w (S (clockReads w))) in
  (forall options images,
     generateImage config toISOString options w = (Ok images, w') ->
     images = [mockImageFor config (prompt options) timestamp]) /\
  (forall options image,
     modifyImage config toISOString options w = (Ok image, w') ->
     image = Some (mockImageFor config (instructions options) timestamp)) /\
  (forall options image,
     applyStyleTransfer config toISOString options w = (Ok image, w') ->
     image = Some (mockImageFor config (styleTransferInstructions options)
                     timestamp)).
Proof.
  cbv zeta. split; [|split].
  - intros options images H. apply (generateImage_returns _ _ _ _ _ _ H).
  - intros options image H. apply (modifyImage_returns _ _ _ _ _ _ H).
  - intros options image H. unfold applyStyleTransfer in H.
    apply (modifyImage_returns _ _ _ _ _ _ H).
Qed.

Lemma returned_images_are_the_mock_witness :
  exists w',
    modifyImage plainConfig (fun _ => "t")
      (mkImageModificationOptions "AAAA" "brighter" (Some true) None) freshWorld
    = (Ok (Some (mockImageFor plainConfig "brighter" "t")), w').
Proof.
  destruct (modifyImage plainConfig (fun _ => "t")
              (mkImageModificationOptions "AAAA" "brighter" (Some true) None)
              freshWorld) as [[image|error] w'] eqn:E.
  - exists w'.
    rewrite (proj1 (proj2 (returned_images_are_the_mock plainConfig
                             (fun _ => "t") freshWorld w')) _ _ E).
    reflexivity.
  - vm_compute in E. discriminate.
Defined.

Lemma batchCalls_images (config : ClientConfig) (toISOString : Z -> string)
    (base : BaseOptions) (w w' : World) (batch : list string)
    (produced : list (list GeneratedImage)) :
  batchCalls config toISOString base w batch produced w' ->
  map metadataPrompt (List.concat produced) = map Some batch /\
  Forall (fun image => base64 image = mockBase64 /\ mimeType image = "image/png")
    (List.concat produced).
Proof.
  induction 1 as [w|w p later images produced w1 w2 Hcall Hrest [IHp IHm]].
  - split; [reflexivity | constructor].
  - destruct (generateImage_returns _ _ _ _ _ _ Hcall) as (-> & _).
    simpl. split.
    + f_equal. exact IHp.
    + constructor; [split; reflexivity | exact IHm].
Qed.

Lemma generateBatch_returns (config : ClientConfig)
    (toISOString : Z -> string) (options : BatchGenerationOptions)
    (w w' : World) (images : list GeneratedImage) :
  generateBatch config toISOString options w = (Ok images, w') ->
  List.length images = List.length (prompts options) /\
  map metadataPrompt images = map Some (prompts options) /\
  Forall (fun image => base64 image = mockBase64 /\ mimeType image = "image/png")
    images.
Proof.
  intros Hrun. unfold generateBatch in Hrun.
  destruct (generateBatchLoop_runs config toISOString
              (orDefault (baseOptions options) noBaseOptions)
              (prompts options) [] w)
    as [(produced & w1 & Hcalls & Hloop)
       |(done & failing & later & produced & w1 & error & w2 & _ & _ & _ & Hloop)];
    rewrite Hloop in Hrun; [|discriminate].
  injection Hrun as <- _. cbn [app].
  destruct (batchCalls_images _ _ _ _ _ _ _ Hcalls) as [Hp Hm].
  split; [|split; assumption].
  rewrite <- (length_map metadataPrompt), Hp, length_map. reflexivity.
Qed.

(** X8. A batch that returns gives exactly one image per prompt, in the
    order of the prompts: the image at each position is the mock
    payload, tagged with the prompt at that position. *)
Theorem batch_one_image_per_prompt (config : ClientConfig)
    (toISOString : Z -> string) (options : BatchGenerationOptions)
    (w w' : World) (images : list GeneratedImage) :
  generateBatch config toISOString options w = (Ok images, w') ->
  List.length images = List.length (prompts options) /\
  map metadataPrompt images = map Some (prompts options) /\
  Forall (fun image => base64 image = mockBase64 /\ mimeType image = "image/png")
    images.
Proof. apply generateBatch_returns. Qed.

Lemma batch_one_image_per_prompt_witness :
  map metadataPrompt
    (match fst (generateBatch plainConfig (fun _ => "t")
                  (mkBatchGenerationOptions ["a"; "b"] None) freshWorld) with
     | Ok images => images
     | Throw _ => []
     end)
  = [Some "a"; Some "b"].
Proof.
  destruct (generateBatch plainConfig (fun _ => "t")
              (mkBatchGenerationOptions ["a"; "b"] None) freshWorld)
    as [[images|error] w'] eqn:E.
  - apply (batch_one_image_per_prompt _ _ _ _ _ _ E).
  - vm_compute in E. discriminate.
Defined.





Lemma parseAnalysisResult_returns (text analysisType : string) :
  exists result, parseAnalysisResult text analysisType = Ok result.
Proof.
  unfold parseAnalysisResult, parseAnalysisResultWith.
  repeat match goal with
         | |- context [(analysisType =? ?name)%string] =>
             destruct (analysisType =? name)%string
         end;
    simpl; eexists; reflexivity.
Qed.

(** X10. An analysis fails only at the admission check, in the remote
    call, or when the text of the response cannot be read; the parser
    never fails it.  Once the call is admitted and the remote model
    returns a response: if its text can be read, [analyzeImage] returns
    what [parseAnalysisResult] makes of it for the type of the options
    (the description when no type is given); if reading it throws, the
    failure is re-thrown as ["Image analysis failed: ..."]. *)
Theorem analysis_returns_the_parse (config : ClientConfig)
    (options : ImageAnalysisOptions) (w w1 : World)
    (response : GenerateContentResponse) :
  checkRateLimit config w = (Ok tt, w1) ->
  remoteAnswer w1 (analysisRequest options) = Ok response ->
  let type := analysisTypeName (orDefault (analysisType options) Description) in
  exists w',
    remoteLog w' = remoteLog w ++ [analysisRequest options] /\
    match response_text response with
    | Ok text =>
        exists result,
          parseAnalysisResult text type = Ok result /\
          analyzeImage config options w = (Ok result, w')
    | Throw cause =>
        analyzeImage config options w
        = (Throw (JsError ("Image analysis failed: "
                             ++ messageOr cause "Unknown error")%string), w')
    end.
Proof.
  intros Hcheck Hremote. cbv zeta. unfold remoteAnswer in Hremote.
  destruct (checkRateLimit_world config w w1 _ Hcheck) as (_ & _ & _ & Hlog & _).
  unfold analyzeImage, bind. rewrite Hcheck.
  unfold tryCatch, bind, model_generateContent.
  fold (analysisRequest options). rewrite Hremote.
  unfold liftResult.
  destruct (response_text response) as [text|cause].
  - destruct (parseAnalysisResult_returns text
                (analysisTypeName (orDefault (analysisType options) Description)))
      as (result & Hparse).
    rewrite Hparse. eexists. split; [|exists result; split; reflexivity].
    cbn [remoteLog]. rewrite Hlog. reflexivity.
  - eexists. split; [|reflexivity]. cbn [remoteLog]. rewrite Hlog. reflexivity.
Qed.

Lemma analysis_returns_the_parse_witness :
  exists w',
    analyzeImage plainConfig (mkImageAnalysisOptions "AAAA" (Some Objects) None)
      freshWorld
    = (Ok (mkAnalysisResult None (Some []) None None None None), w').
Proof.
  destruct (analysis_returns_the_parse plainConfig
              (mkImageAnalysisOptions "AAAA" (Some Objects) None) freshWorld
              (mkWorld [0] (fun k => 1000 * Z.of_nat k) 1 quietRemote [])
              (mkGenerateContentResponse (Ok "no image here")))
    as (w' & _ & result & Hparse & Hrun).
  - reflexivity.
  - reflexivity.
  - exists w'. rewrite Hrun. vm_compute in Hparse. injection Hparse as <-.
    reflexivity.
Defined.

(** ** The gateway, further *)

Lemma unflagged_bind {A : Type} (m : M A) (k : A -> M CallToolResult) :
  (forall value, returnsUnflagged (k value)) -> returnsUnflagged (bind m k).
Proof.
  intros Hk w envelope w'. unfold bind.
  destruct (m w) as [[value|e] w1]; [apply Hk | discriminate].
Qed.

Lemma unflagged_ret (items : list ContentItem) :
  returnsUnflagged (ret (mkCallToolResult items None)).
Proof. intros w envelope w' H. injection H as <- _. reflexivity. Qed.

Lemma unflagged_throw (error : JsException) : returnsUnflagged (throw error).
Proof. intros w envelope w' H. discriminate. Qed.

Section GatewayFurther.

Variable config : ClientConfig.
Variable toISOString : Z -> string.
Variable toFixed1 : Q -> string.
Variable JSON_stringify : Comprehensive -> string.
Variable Arguments : Type.
Variable asImageGenerationOptions : Arguments -> ImageGenerationOptions.
Variable asImageModificationOptions : Arguments -> ImageModificationOptions.
Variable asImageAnalysisOptions : Arguments -> ImageAnalysisOptions.
Variable asBatchGenerationOptions : Arguments -> BatchGenerationOptions.
Variable asStyleTransferOptions : Arguments -> StyleTransferOptions.

Local Abbreviation dispatch :=
  (dispatchTool config toISOString toFixed1 JSON_stringify Arguments
     asImageGenerationOptions asImageModificationOptions
     asImageAnalysisOptions asBatchGenerationOptions asStyleTransferOptions).

Local Abbreviation handler :=
  (callToolHandler config toISOString toFixed1 JSON_stringify Arguments
     asImageGenerationOptions asImageModificationOptions
     asImageAnalysisOptions asBatchGenerationOptions asStyleTransferOptions).

Lemma unflagged_dispatchTool (name : string) (args : Arguments) :
  returnsUnflagged (dispatch name args).
Proof.
  unfold dispatchTool.
  repeat match goal with
         | |- returnsUnflagged (if ?c then _ else _) => destruct c
         end.
  - unfold handleGenerateImage. apply unflagged_bind. intros images.
    apply unflagged_ret.
  - unfold handleModifyImage. apply unflagged_bind.
    intros [image|]; [apply unflagged_ret | apply unflagged_throw].
  - unfold handleAnalyzeImage. apply unflagged_bind. intros analysis.
    apply unflagged_ret.
  - unfold handleBatchGenerate. apply unflagged_bind. intros images.
    apply unflagged_ret.
  - unfold handleStyleTransfer. apply unflagged_bind.
    intros [image|]; [apply unflagged_ret | apply unflagged_throw].
  - apply unflagged_throw.
Qed.

(** X11. The error flag of the response tells failure from success: the
    envelope of a tool call has [isError] set, to [true], exactly when
    the dispatch to the tool failed, and has no [isError] at all when
    the tool returned. *)
Theorem error_flag_iff_failure (request : CallToolRequest Arguments)
    (w w' : World) (envelope : CallToolResult) :
  handler request w = (Ok envelope, w') ->
  (isError envelope = Some true <->
   throws (fst (dispatch (params_name Arguments request)
                  (params_arguments Arguments request) w)) = true) /\
  (isError envelope = None <->
   throws (fst (dispatch (params_name Arguments request)
                  (params_arguments Arguments request) w)) = false).
Proof.
  unfold callToolHandler, tryCatch. cbv zeta.
  pose proof (unflagged_dispatchTool (params_name Arguments request)
                (params_arguments Arguments request) w) as Hplain.
  destruct (dispatch (params_name Arguments request)
              (params_arguments Arguments request) w)
    as [[produced|error] w1] eqn:E; cbn [fst throws].
  - intros H. injection H as <- _. rewrite (Hplain produced w1 eq_refl).
    split; split; intros; congruence.
  - unfold ret, errorEnvelope. intros H. injection H as <- _. cbn [isError].
    split; split; intros; congruence.
Qed.

(** X12. When the extraction of the requested type finds nothing in the
    answer of the remote model (no object line, no non-blank line, no
    colour code, no emotion with a percentage; for the description, an
    empty answer), the analysis tool responds with the one sentence
    that no specific results were extracted: the answer itself is not
    passed on. *)
Theorem analysis_without_matches (options : ImageAnalysisOptions)
    (w w1 : World) (response : GenerateContentResponse) (text : string) :
  checkRateLimit config w = (Ok tt, w1) ->
  remoteAnswer w1 (analysisRequest options) = Ok response ->
  response_text response = Ok text ->
  extractsNothing (orDefault (analysisType options) Description) text = true ->
  exists w',
    handleAnalyzeImage config toFixed1 JSON_stringify options w
    = (Ok (mkCallToolResult
             [TextContent
                "Analysis completed but no specific results were extracted."]
             None),
       w').
Proof.
  intros Hcheck Hremote Htext Hnothing. unfold remoteAnswer in Hremote.
  unfold handleAnalyzeImage, bind, analyzeImage, bind. rewrite Hcheck.
  unfold tryCatch, bind, model_generateContent.
  fold (analysisRequest options). rewrite Hremote, Htext.
  unfold liftResult, parseAnalysisResult, parseAnalysisResultWith.
  destruct (orDefault (analysisType options) Description);
    cbn [extractsNothing] in Hnothing;
    cbn [analysisTypeName String.eqb Ascii.eqb Bool.eqb tryCatchPure assignFrom
           clientExtractors ex_parseObjects ex_parseText ex_parseColors
           ex_parseEmotions ex_parseComprehensive];
    try discriminate.
  - destruct text; [|discriminate]. eexists. reflexivity.
  - destruct (parseObjects text); [|discriminate]. eexists. reflexivity.
  - destruct (parseText text); [|discriminate]. eexists. reflexivity.
  - destruct (parseColors text); [|discriminate]. eexists. reflexivity.
  - destruct (parseEmotions text); [|discriminate]. eexists. reflexivity.
Qed.

Lemma mock_items (images : list GeneratedImage) :
  Forall (fun image => base64 image = mockBase64 /\ mimeType image = "image/png")
    images ->
  map imageContent images
  = repeat (ImageContent mockBase64 "image/png") (List.length images).
Proof.
  induction 1 as [|image images [Hb Hm] _ IH]; [reflexivity|].
  simpl. unfold imageContent at 1. rewrite Hb, Hm, IH. reflexivity.
Qed.

(** X21. The envelope of a tool that returns images: a line of text and
    the images, each the mock payload of type image/png.  The
    generation tool always reports and carries one image; the batch
    tool as many as it had prompts; the modification and the style
    transfer tools one, so that their reading of the image never meets
    [undefined]. *)
Theorem image_tools_envelopes (w w' : World) (envelope : CallToolResult) :
  (forall options,
     handleGenerateImage config toISOString options w = (Ok envelope, w') ->
     envelope
     = mkCallToolResult
         [TextContent ("Successfully generated 1 image(s) for prompt: "
                         ++ doubleQuote ++ prompt options ++ doubleQuote)%string;
          ImageContent mockBase64 "image/png"]
         None) /\
  (forall options,
     handleBatchGenerate config toISOString options w = (Ok envelope, w') ->
     let n := List.length (prompts options) in
     envelope
     = mkCallToolResult
         (TextContent ("Successfully generated " ++ string_of_nat n
                         ++ " images from " ++ string_of_nat n ++ " prompts")%string
          :: repeat (ImageContent mockBase64 "image/png") n)
         None) /\
  (forall options,
     handleModifyImage config toISOString options w = (Ok envelope, w') ->
     envelope
     = mkCallToolResult
         [TextContent ("Successfully modified image with instructions: "
                         ++ doubleQuote ++ instructions options ++ doubleQuote)%string;
          ImageContent mockBase64 "image/png"]
         None) /\
  (forall options,
     handleStyleTransfer config toISOString options w = (Ok envelope, w') ->
     envelope
     = mkCallToolResult
         [TextContent ("Successfully applied " ++ artisticStyleName (st_style options)
                         ++ " style to the image")%string;
          ImageContent mockBase64 "image/png"]
         None).
Proof.
  split; [|split; [|split]]; intros options.
  - unfold handleGenerateImage, bind.
    destruct (generateImage config toISOString options w)
      as [[images|error] w1] eqn:E; [|discriminate].
    destruct (generateImage_returns _ _ _ _ _ _ E) as (-> & _).
    unfold ret. intros H. injection H as <- _. reflexivity.
  - unfold handleBatchGenerate, bind.
    destruct (generateBatch config toISOString options w)
      as [[images|error] w1] eqn:E; [|discriminate].
    destruct (generateBatch_returns _ _ _ _ _ _ E) as (Hlen & _ & Hmock).
    unfold ret. intros H. injection H as <- _. cbv zeta.
    rewrite (mock_items images Hmock), Hlen. reflexivity.
  - unfold handleModifyImage, bind.
    destruct (modifyImage config toISOString options w)
      as [[image|error] w1] eqn:E; [|discriminate].
    rewrite (modifyImage_returns _ _ _ _ _ _ E).
    unfold ret. intros H. injection H as <- _. reflexivity.
  - unfold handleStyleTransfer, bind.
    destruct (applyStyleTransfer config toISOString options w)
      as [[image|error] w1] eqn:E; [|discriminate].
    unfold applyStyleTransfer in E. rewrite (modifyImage_returns _ _ _ _ _ _ E).
    unfold ret. intros H. injection H as <- _. reflexivity.
Qed.

End GatewayFurther.

Lemma error_flag_iff_failure_witness :
  isError (mkCallToolResult [TextContent "Error: Unknown tool: deleteImage"]
             (Some true))
  = Some true.
Proof.
  apply (proj1 (error_flag_iff_failure plainConfig
                  (fun _ => "1970-01-01T00:00:00.000Z")
                  (fun _ => "0.0") (fun _ => "{}") unit
                  (fun _ => mkImageGenerationOptions "a cat" noBaseOptions)
                  (fun _ => mkImageModificationOptions "AAAA" "brighter" None None)
                  (fun _ => mkImageAnalysisOptions "AAAA" None None)
                  (fun _ => mkBatchGenerationOptions [] None)
                  (fun _ => mkStyleTransferOptions "AAAA" Anime None)
                  (mkCallToolRequest unit "deleteImage" tt) freshWorld freshWorld
                  _ eq_refl)).
  reflexivity.
Defined.

Lemma analysis_without_matches_witness :
  exists w',
    handleAnalyzeImage plainConfig (fun _ => "0.0") (fun _ => "{}")
      (mkImageAnalysisOptions "AAAA" (Some Objects) None) freshWorld
    = (Ok (mkCallToolResult
             [TextContent
                "Analysis completed but no specific results were extracted."]
             None),
       w').
Proof.
  apply (analysis_without_matches plainConfig (fun _ => "0.0") (fun _ => "{}")
           (mkImageAnalysisOptions "AAAA" (Some Objects) None) freshWorld
           (mkWorld [0] (fun k => 1000 * Z.of_nat k) 1 quietRemote [])
           (mkGenerateContentResponse (Ok "no image here")) "no image here");
    reflexivity.
Defined.

Lemma image_tools_envelopes_witness :
  fst (handleBatchGenerate plainConfig (fun _ => "t")
         (mkBatchGenerationOptions ["a"; "b"] None) freshWorld)
  = Ok (mkCallToolResult
          [TextContent "Successfully generated 2 images from 2 prompts";
           ImageContent mockBase64 "image/png";
           ImageContent mockBase64 "image/png"]
          None).
Proof.
  destruct (handleBatchGenerate plainConfig (fun _ => "t")
              (mkBatchGenerationOptions ["a"; "b"] None) freshWorld)
    as [[envelope|error] w'] eqn:E.
  - rewrite (proj1 (proj2 (image_tools_envelopes plainConfig (fun _ => "t")
                             freshWorld w' envelope)) _ E).
    reflexivity.
  - vm_compute in E. discriminate.
Defined.

(** ** The extractors *)

Lemma span_append (p : ascii -> bool) (s : string) :
  s = (fst (span p s) ++ snd (span p s))%string.
Proof.
  induction s as [|c rest IH]; [reflexivity|]. simpl.
  destruct (p c); [|reflexivity].
  destruct (span p rest) as [taken left]. simpl in *. rewrite <- IH. reflexivity.
Qed.

Lemma anyChar_app (p : ascii -> bool) (a b : string) :
  anyChar p (a ++ b)%string = anyChar p a || anyChar p b.
Proof.
  induction a as [|c a IH]; [reflexivity|]. simpl. rewrite IH.
  apply orb_assoc.
Qed.

Lemma matchDigitsPercent_percent (s digits : string) :
  matchDigitsPercent s = Some digits -> hasChar 37 s = true.
Proof.
  unfold matchDigitsPercent, hasChar. intros H.
  rewrite (span_append isDigit s), anyChar_app.
  destruct (span isDigit s) as [[|d ds] [|c left]]; try discriminate.
  cbn [fst snd anyChar].
  destruct (charCode c =? 37)%N; [|discriminate].
  rewrite orb_true_l. apply orb_true_r.
Qed.

Lemma matchColonPercent_chars (s digits : string) :
  matchColonPercent s = Some digits ->
  hasChar 37 s = true /\ hasChar 58 s = true.
Proof.
  unfold matchColonPercent. destruct s as [|c rest]; [discriminate|].
  destruct (charCode c =? 58)%N eqn:E; [|discriminate]. intros H.
  apply matchDigitsPercent_percent in H. unfold hasChar in *. cbn [anyChar].
  rewrite E. split; [|reflexivity].
  rewrite (span_append isWhiteSpace rest), anyChar_app, H.
  rewrite orb_true_r. apply orb_true_r.
Qed.

Lemma matchObjectFrom_chars (s name : string) (groups : string * string) :
  matchObjectFrom name s = Some groups ->
  hasChar 37 s = true /\ hasChar 58 s = true.
Proof.
  revert name. induction s as [|c rest IH]; intros name; [discriminate|].
  cbn [matchObjectFrom].
  destruct (matchColonPercent (String c rest)) as [digits|] eqn:E.
  - intros _. apply (matchColonPercent_chars _ _ E).
  - destruct (isLineTerminator c); [discriminate|]. intros H.
    destruct (IH _ H) as [H1 H2]. unfold hasChar in *. cbn [anyChar].
    rewrite H1, H2. split; apply orb_true_r.
Qed.

Lemma matchObjectLine_chars (line : string) (groups : string * string) :
  matchObjectLine line = Some groups ->
  hasChar 37 line = true /\ hasChar 58 line = true.
Proof.
  induction line as [|c rest IH]; [discriminate|]. cbn [matchObjectLine].
  assert (Hrest : hasChar 37 rest = true /\ hasChar 58 rest = true ->
                  hasChar 37 (String c rest) = true /\
                  hasChar 58 (String c rest) = true).
  { unfold hasChar. cbn [anyChar]. intros [-> ->]. split; apply orb_true_r. }
  destruct (isLineTerminator c).
  - intros H. apply Hrest, IH, H.
  - destruct (matchObjectFrom (String c EmptyString) rest) as [g|] eqn:E.
    + intros _. apply Hrest. apply (matchObjectFrom_chars _ _ _ E).
    + intros H. apply Hrest, IH, H.
Qed.

Lemma splitLines_chars (p : ascii -> bool) (text line : string) :
  In line (splitLines text) -> anyChar p line = true -> anyChar p text = true.
Proof.
  revert line. induction text as [|c rest IH]; intros line.
  - intros [<-|[]] H. exact H.
  - cbn [splitLines anyChar].
    destruct (charCode c =? 10)%N.
    + intros [<-|Hin] H; [discriminate|]. rewrite (IH _ Hin H). apply orb_true_r.
    + destruct (splitLines rest) as [|first others] eqn:E.
      * intros [<-|[]] H. cbn [anyChar] in H. rewrite orb_false_r in H.
        rewrite H. reflexivity.
      * intros [<-|Hin] H.
        -- cbn [anyChar] in H. apply orb_true_iff in H. destruct H as [->|H];
             [reflexivity|]. rewrite (IH first (or_introl eq_refl) H).
           apply orb_true_r.
        -- rewrite (IH line (or_intror Hin) H). apply orb_true_r.
Qed.

Lemma matchLazyPercent_percent (s digits : string) :
  matchLazyPercent s = Some digits -> hasChar 37 s = true.
Proof.
  induction s as [|c rest IH].
  - cbn. discriminate.
  - cbn [matchLazyPercent].
    destruct (matchDigitsPercent (String c rest)) as [d|] eqn:E.
    + intros _. apply (matchDigitsPercent_percent _ _ E).
    + destruct (isLineTerminator c); [discriminate|]. intros H.
      unfold hasChar in *. cbn [anyChar]. rewrite (IH H). apply orb_true_r.
Qed.

Lemma matchWord_rest (p : ascii -> bool) (word s rest : string) :
  matchWord word s = Some rest -> anyChar p rest = true -> anyChar p s = true.
Proof.
  revert s. induction word as [|x word IH]; intros s.
  - destruct s; cbn; intros H; injection H as <-; trivial.
  - destruct s as [|c s']; [discriminate|]. cbn [matchWord].
    destruct (charCode (canonicalize x) =? charCode (canonicalize c))%N;
      [|discriminate].
    intros H Hp. cbn [anyChar]. rewrite (IH _ H Hp). apply orb_true_r.
Qed.

Lemma matchEmotion_percent (emotion text digits : string) :
  matchEmotion emotion text = Some digits -> hasChar 37 text = true.
Proof.
  induction text as [|c rest IH].
  - cbn [matchEmotion]. destruct (matchWord emotion EmptyString) as [r|] eqn:E.
    + destruct (matchLazyPercent r) eqn:E2; [|discriminate]. intros _.
      unfold hasChar. apply (matchWord_rest _ _ _ _ E).
      apply (matchLazyPercent_percent _ _ E2).
    + discriminate.
  - cbn [matchEmotion]. destruct (matchWord emotion (String c rest)) as [r|] eqn:E.
    + destruct (matchLazyPercent r) eqn:E2.
      * intros _. unfold hasChar. apply (matchWord_rest _ _ _ _ E).
        apply (matchLazyPercent_percent _ _ E2).
      * intros H. unfold hasChar in *. cbn [anyChar]. rewrite (IH H).
        apply orb_true_r.
    + intros H. unfold hasChar in *. cbn [anyChar]. rewrite (IH H).
      apply orb_true_r.
Qed.

Lemma no_element_nil {A : Type} (l : list A) :
  (forall x, ~ In x l) -> l = [].
Proof.
  destruct l as [|x l]; [reflexivity|]. intros H. destruct (H x).
  left. reflexivity.
Qed.

(** X13. A text without a percent sign gives no object and no emotion,
    and a text without a colon gives no object: the two extractors
    read nothing but percentages. *)
Theorem nothing_without_percent (text : string) :
  (hasChar 37 text = false -> parseObjects text = [] /\ parseEmotions text = []) /\
  (hasChar 58 text = false -> parseObjects text = []).
Proof.
  assert (Hobj : forall code, (code = 37 \/ code = 58)%N ->
                   hasChar code text = false -> parseObjects text = []).
  { intros code Hcode Hno. apply no_element_nil. intros e He.
    apply parseObjects_entries in He.
    destruct He as [[]|(line & name & digits & Hline & Hm & _)].
    apply matchObjectLine_chars in Hm. destruct Hm as [H37 H58].
    assert (hasChar code text = true).
    { destruct Hcode as [->| ->]; unfold hasChar;
        eapply splitLines_chars; eassumption. }
    congruence. }
  split.
  - intros Hno. split; [apply (Hobj 37%N); [left; reflexivity | exact Hno]|].
    apply no_element_nil. intros e He. apply parseEmotions_entries in He.
    destruct He as [[]|(digits & _ & Hm & _)].
    apply matchEmotion_percent in Hm. congruence.
  - intros Hno. apply (Hobj 58%N); [right; reflexivity | exact Hno].
Qed.

Lemma nothing_without_percent_witness :
  parseObjects "a cat: about 85 percent" = [] /\
  parseEmotions "a cat: about 85 percent" = [].
Proof.
  apply (proj1 (nothing_without_percent "a cat: about 85 percent")).
  reflexivity.
Defined.

Lemma parseEmotions_names (text : string) (words : list string)
    (init : list DetectedEmotion) :
  map emo_emotion
    (fold_left
       (fun result emotion =>
          match matchEmotion emotion text with
          | Some digits =>
              result ++ [mkDetectedEmotion emotion (percentToConfidence digits)]
          | None => result
          end)
       words init)
  = map emo_emotion init
      ++ filter (fun word => isSome (matchEmotion word text)) words.
Proof.
  revert init. induction words as [|word rest IH]; intros init.
  - simpl. rewrite app_nil_r. reflexivity.
  - simpl. rewrite IH. destruct (matchEmotion word text); simpl.
    + rewrite map_app, <- app_assoc. reflexivity.
    + reflexivity.
Qed.

(** X14. The emotions of a result are the words of the vocabulary whose
    pattern matches the text, in the order of the vocabulary: at most
    seven entries, none twice, whatever the order and the number of
    their mentions in the text. *)
Theorem emotions_follow_vocabulary (text : string) :
  map emo_emotion (parseEmotions text)
  = filter (fun word => isSome (matchEmotion word text)) emotionWords /\
  NoDup (map emo_emotion (parseEmotions text)) /\
  (List.length (parseEmotions text) <= 7)%nat.
Proof.
  assert (H : map emo_emotion (parseEmotions text)
              = filter (fun word => isSome (matchEmotion word text)) emotionWords).
  { unfold parseEmotions. rewrite parseEmotions_names. reflexivity. }
  split; [exact H|]. split.
  - rewrite H. apply NoDup_filter. unfold emotionWords.
    repeat constructor; simpl; intuition discriminate.
  - rewrite <- (length_map emo_emotion), H.
    apply (filter_length_le _ emotionWords).
Qed.




Lemma matchHexColor_shape (s hex : string) :
  matchHexColor s = Some hex ->
  isHexColor hex = true /\ exists rest, s = (hex ++ rest)%string.
Proof.
  unfold matchHexColor.
  destruct s as [|h [|a [|b [|c [|d [|e [|f rest]]]]]]]; try discriminate.
  destruct (charCode h =? 35)%N eqn:Eh; [|discriminate].
  destruct (isHexDigit a) eqn:Ea; [|discriminate].
  destruct (isHexDigit b) eqn:Eb; [|discriminate].
  destruct (isHexDigit c) eqn:Ec; [|discriminate].
  destruct (isHexDigit d) eqn:Ed; [|discriminate].
  destruct (isHexDigit e) eqn:Ee; [|discriminate].
  destruct (isHexDigit f) eqn:Ef; [|discriminate].
  cbn [andb]. intros H. injection H as <-. split.
  - cbn [isHexColor allChars String.length Nat.eqb].
    rewrite Eh, Ea, Eb, Ec, Ed, Ee, Ef. reflexivity.
  - exists rest. reflexivity.
Qed.

Lemma includes_tail (needle : string) (c : ascii) (rest : string) :
  includes needle rest = true -> includes needle (String c rest) = true.
Proof. intros H. cbn [includes]. rewrite H. apply orb_true_r. Qed.

Lemma matchAllHexColors_entries (text : string) :
  forall skip hex,
    In hex (matchAllHexColors skip text) ->
    isHexColor hex = true /\ includes hex text = true.
Proof.
  induction text as [|c rest IH]; intros skip hex; [intros []|].
  cbn [matchAllHexColors]. destruct skip as [|skip'].
  - destruct (matchHexColor (String c rest)) as [found|] eqn:E.
    + intros [<-|Hin].
      * destruct (matchHexColor_shape _ _ E) as [Hshape [tail Htail]].
        split; [exact Hshape|]. rewrite Htail.
        apply includes_prefix, prefix_app.
      * destruct (IH _ _ Hin) as [H1 H2].
        split; [exact H1 | apply includes_tail; exact H2].
    + intros Hin. destruct (IH _ _ Hin) as [H1 H2].
      split; [exact H1 | apply includes_tail; exact H2].
  - intros Hin. destruct (IH _ _ Hin) as [H1 H2].
    split; [exact H1 | apply includes_tail; exact H2].
Qed.

Lemma matchAllHexColors_count (text : string) :
  forall skip,
    (7 * List.length (matchAllHexColors skip text) <= String.length text - skip)%nat.
Proof.
  induction text as [|c rest IH]; intros skip; [simpl; lia|].
  cbn [matchAllHexColors]. destruct skip as [|skip'].
  - destruct (matchHexColor (String c rest)) as [found|] eqn:E.
    + destruct (matchHexColor_shape _ _ E) as [Hshape [tail Htail]].
      assert (Hlen : (7 <= String.length (String c rest))%nat).
      { rewrite Htail. destruct found as [|x digits]; [discriminate|].
        cbn [isHexColor] in Hshape.
        apply andb_true_iff in Hshape. destruct Hshape as [Hshape _].
        apply andb_true_iff in Hshape. destruct Hshape as [_ Hsix].
        apply Nat.eqb_eq in Hsix.
        clear - Hsix. simpl. revert Hsix. generalize digits.
        clear. intros digits Hsix.
        assert (H : forall a b, String.length (a ++ b)
                                = (String.length a + String.length b)%nat).
        { induction a; intros b; simpl; [reflexivity | rewrite IHa; reflexivity]. }
        rewrite H. lia. }
      specialize (IH 6%nat). cbn [List.length String.length] in *. lia.
    + specialize (IH 0%nat). cbn [String.length]. lia.
  - specialize (IH skip'). cbn [String.length]. lia.
Qed.

(** X16. Every colour of a result is a code that occurs in the text, a
    [#] and six hexadecimal digits, with the name ["Unknown"] and the
    percentage 0; the codes are taken without overlap, so seven
    characters of text are needed for each. *)
Theorem colours_are_codes_of_the_text (text : string) :
  Forall (fun colour =>
            isHexColor (color_hex colour) = true /\
            includes (color_hex colour) text = true /\
            color_name colour = "Unknown" /\
            color_percentage colour = 0)
    (parseColors text) /\
  (7 * List.length (parseColors text) <= String.length text)%nat.
Proof.
  unfold parseColors. split.
  - apply Forall_forall. intros colour Hin. apply in_map_iff in Hin.
    destruct Hin as (hex & <- & Hin).
    destruct (matchAllHexColors_entries text 0 hex Hin) as [H1 H2].
    cbn [color_hex color_name color_percentage]. repeat split; assumption.
  - rewrite length_map. pose proof (matchAllHexColors_count text 0). lia.
Qed.

Lemma splitLines_no_lineFeed (text line : string) :
  In line (splitLines text) -> hasChar 10 line = false.
Proof.
  revert line. induction text as [|c rest IH]; intros line.
  - intros [<-|[]]. reflexivity.
  - cbn [splitLines]. destruct (charCode c =? 10)%N eqn:E.
    + intros [<-|Hin]; [reflexivity | apply IH, Hin].
    + destruct (splitLines rest) as [|first others].
      * intros [<-|[]]. unfold hasChar. cbn [anyChar]. rewrite E. reflexivity.
      * intros [<-|Hin].
        -- unfold hasChar. cbn [anyChar]. rewrite E.
           apply (IH first). left. reflexivity.
        -- apply IH. right. exact Hin.
Qed.

Lemma trimStart_ink (s : string) :
  anyChar isInk (trimStart s) = anyChar isInk s.
Proof.
  induction s as [|c rest IH]; [reflexivity|]. cbn [trimStart anyChar].
  unfold isInk at 2. destruct (isWhiteSpace c) eqn:E; [exact IH|].
  cbn [anyChar]. unfold isInk at 1. rewrite E. reflexivity.
Qed.

Lemma trimEnd_empty (s : string) :
  isEmpty (trimEnd s) = negb (anyChar isInk s).
Proof.
  induction s as [|c rest IH]; [reflexivity|]. cbn [trimEnd anyChar].
  unfold isInk at 1. rewrite IH.
  destruct (isWhiteSpace c), (anyChar isInk rest); reflexivity.
Qed.

Lemma trim_empty (s : string) : isEmpty (trim s) = negb (anyChar isInk s).
Proof. unfold trim. rewrite trimEnd_empty, trimStart_ink. reflexivity. Qed.

(** X17. The text lines of a result are the lines of the text that hold
    a character other than white space, unchanged and in order; none
    holds a line feed, and a text of white space alone gives no
    line. *)
Theorem text_lines_are_the_inked_lines (text : string) :
  parseText text = filter (anyChar isInk) (splitLines text) /\
  Forall (fun line => hasChar 10 line = false /\ anyChar isInk line = true)
    (parseText text) /\
  (anyChar isInk text = false -> parseText text = []).
Proof.
  assert (H : parseText text = filter (anyChar isInk) (splitLines text)).
  { unfold parseText. apply filter_ext. intros line. rewrite trim_empty.
    apply negb_involutive. }
  split; [exact H|]. split.
  - rewrite H. apply Forall_forall. intros line Hin. apply filter_In in Hin.
    destruct Hin as [Hline Hink].
    split; [apply (splitLines_no_lineFeed text line Hline) | exact Hink].
  - intros Hblank. rewrite H. apply no_element_nil. intros line Hin.
    apply filter_In in Hin. destruct Hin as [Hline Hink].
    rewrite (splitLines_chars isInk text line Hline Hink) in Hblank.
    discriminate.
Qed.

Lemma text_lines_are_the_inked_lines_witness :
  parseText (" " ++ lineFeed ++ "  " ++ lineFeed) = [].
Proof.
  apply (proj2 (proj2 (text_lines_are_the_inked_lines
                         (" " ++ lineFeed ++ "  " ++ lineFeed)))).
  reflexivity.
Defined.

(** ** The prompts and the settings *)

Lemma prefix_refl (s : string) : String.prefix s s = true.
Proof.
  induction s as [|c s IH]; [reflexivity|]. simpl.
  destruct (ascii_dec c c) as [_|Hne]; [exact IH | contradiction].
Qed.

(** X18. The prompt sent for a generation begins with the prompt of the
    caller and is that prompt alone when the style is absent or
    realistic, no aspect ratio is given and the quality is absent or
    standard; with the quality ultra it ends with the clause of that
    quality.  The width, the height, the number of images and the seed
    of the options have no part in it. *)
Theorem generation_prompt_keeps_the_prompt (options : ImageGenerationOptions) :
  String.prefix (prompt options) (buildGenerationPrompt options) = true /\
  (forall w h n s,
     buildGenerationPrompt
       (mkImageGenerationOptions (prompt options)
          (mkBaseOptions w h (aspectRatio (gen_options options))
             (style (gen_options options)) (quality (gen_options options)) n s))
     = buildGenerationPrompt options) /\
  ((style (gen_options options) = None \/
    style (gen_options options) = Some Realistic) ->
   aspectRatio (gen_options options) = None ->
   (quality (gen_options options) = None \/
    quality (gen_options options) = Some Standard) ->
   buildGenerationPrompt options = prompt options) /\
  (quality (gen_options options) = Some Ultra ->
   exists before,
     buildGenerationPrompt options
     = (before ++ ", ultra high quality, extremely detailed, masterpiece")%string).
Proof.
  split; [|split; [|split]].
  - unfold buildGenerationPrompt. cbv zeta.
    destruct (style (gen_options options)) as [[]|];
      destruct (aspectRatio (gen_options options)) as [r|];
      destruct (quality (gen_options options)) as [[]|];
      repeat rewrite string_append_assoc;
      (apply prefix_refl || apply prefix_app).
  - intros w h n s. reflexivity.
  - intros Hstyle Hratio Hquality. unfold buildGenerationPrompt. cbv zeta.
    rewrite Hratio.
    destruct Hstyle as [-> | ->]; destruct Hquality as [-> | ->]; reflexivity.
  - intros Hquality. unfold buildGenerationPrompt. cbv zeta. rewrite Hquality.
    eexists. reflexivity.
Qed.

Lemma generation_prompt_keeps_the_prompt_witness :
  buildGenerationPrompt
    (mkImageGenerationOptions "a cat"
       (mkBaseOptions (Some 512) None None (Some Realistic) (Some Standard)
          (Some 4) (Some 7)))
  = "a cat".
Proof.
  apply (proj1 (proj2 (proj2 (generation_prompt_keeps_the_prompt
                                (mkImageGenerationOptions "a cat"
                                   (mkBaseOptions (Some 512) None None
                                      (Some Realistic) (Some Standard)
                                      (Some 4) (Some 7))))))).
  - right. reflexivity.
  - reflexivity.
  - right. reflexivity.
Defined.

(** X19. The detail of an analysis request shapes the prompt of the
    description only: for each of the other five types the prompt is
    one fixed sentence, whatever the detail and the image.  An absent
    type is the description and an absent detail is medium. *)
Theorem analysis_prompt_ignores_detail (type : AnalysisType) :
  (type <> Description ->
   forall image1 image2 detail1 detail2,
     buildAnalysisPrompt (mkImageAnalysisOptions image1 (Some type) detail1)
     = buildAnalysisPrompt (mkImageAnalysisOptions image2 (Some type) detail2)) /\
  (forall image detail,
     buildAnalysisPrompt (mkImageAnalysisOptions image None detail)
     = buildAnalysisPrompt
         (mkImageAnalysisOptions image (Some Description) detail)) /\
  (forall image,
     buildAnalysisPrompt (mkImageAnalysisOptions image (Some type) None)
     = buildAnalysisPrompt
         (mkImageAnalysisOptions image (Some type) (Some Medium))) /\
  (forall image detail,
     buildAnalysisPrompt
       (mkImageAnalysisOptions image (Some Description) (Some detail))
     = ("Provide a " ++ detailName detail
          ++ " detail description of this image.")%string).
Proof.
  split; [|split; [|split]].
  - intros Hne image1 image2 detail1 detail2.
    destruct type; [contradiction Hne; reflexivity | | | | |]; reflexivity.
  - reflexivity.
  - reflexivity.
  - reflexivity.
Qed.

Lemma analysis_prompt_ignores_detail_witness :
  buildAnalysisPrompt (mkImageAnalysisOptions "AAAA" (Some Colors) (Some Low))
  = buildAnalysisPrompt
      (mkImageAnalysisOptions "BBBB" (Some Colors) (Some HighDetail)).
Proof.
  apply (proj1 (analysis_prompt_ignores_detail Colors)). discriminate.
Defined.

(** X20. The safety settings name each of the four harm categories
    once, all with one threshold, and a configuration given without a
    level blocks medium and above. *)
Theorem safety_settings_cover_the_categories (config : ClientConfig) :
  map category (getSafetySettings config)
  = [HARM_CATEGORY_HARASSMENT; HARM_CATEGORY_HATE_SPEECH;
     HARM_CATEGORY_SEXUALLY_EXPLICIT; HARM_CATEGORY_DANGEROUS_CONTENT] /\
  (forall a b, In a (getSafetySettings config) ->
     In b (getSafetySettings config) -> threshold a = threshold b) /\
  (forall key model limit,
     map threshold
       (getSafetySettings (constructorConfig (mkGeminiConfig key model None limit)))
     = [BLOCK_MEDIUM_AND_ABOVE; BLOCK_MEDIUM_AND_ABOVE; BLOCK_MEDIUM_AND_ABOVE;
        BLOCK_MEDIUM_AND_ABOVE]).
Proof.
  split; [reflexivity|]. split.
  - intros a b Ha Hb. unfold getSafetySettings in *. cbv zeta in *.
    simpl in Ha, Hb.
    repeat destruct Ha as [<-|Ha]; try destruct Ha;
      repeat destruct Hb as [<-|Hb]; try destruct Hb; reflexivity.
  - reflexivity.
Qed.

Lemma safety_settings_cover_the_categories_witness :
  threshold (mkSafetySetting HARM_CATEGORY_HARASSMENT BLOCK_NONE)
  = threshold (mkSafetySetting HARM_CATEGORY_DANGEROUS_CONTENT BLOCK_NONE).
Proof.
  apply (proj1 (proj2 (safety_settings_cover_the_categories
                         (mkClientConfig "key" "model" SafetyBlockNone 10)))).
  - left. reflexivity.
  - right. right. right. left. reflexivity.
Defined.
